(** * Anonymous feedback wall: slug derivation, row policies and views

    A shallow embedding of the page-management view (generateSlug,
    handleTitleChange, createPage), the public submission view (fetchPage,
    submitFeedback), the feedback-review view (fetchPageAndFeedback and the
    ordinal labels) and of the store schema with its row-level-security
    policies, followed by the properties the specification states about
    them. *)

From Stdlib Require Import List NArith ZArith Bool Lia String Ascii Arith.
From Stdlib Require Import Sorting.Sorted Sorting.Permutation.
Import ListNotations.

Set Implicit Arguments.

(* ===================================================================== *)
(** ** JavaScript strings                                                 *)
(* ===================================================================== *)

(** A JavaScript string is a sequence of UTF-16 code units.  The regular
    expressions of [generateSlug] carry no [u] flag, so they match one code
    unit at a time, which is why the code unit is the character here. *)
Module JS.

Local Open Scope N_scope.

Definition codeunit := N.
Definition jsstring := list codeunit.

(** An ASCII literal as a JavaScript string. *)
Definition lit (s : string) : jsstring :=
  map N_of_ascii (list_ascii_of_string s).

Definition between (lo hi c : codeunit) : bool :=
  (lo <=? c) && (c <=? hi).

Definition HYPHEN : codeunit := 45.

Definition isAscii (c : codeunit) : bool := (c <? 128).
Definition isUpperAZ (c : codeunit) : bool := between 65 90 c.
Definition isLowerAZ (c : codeunit) : bool := between 97 122 c.
Definition isDigit (c : codeunit) : bool := between 48 57 c.
Definition isHyphen (c : codeunit) : bool := (c =? HYPHEN).

(** The class [\s] of a regular expression, which is also what
    [String.prototype.trim] strips: WhiteSpace and LineTerminator, that is
    TAB, LF, VT, FF, CR, SP, NBSP, U+1680, U+2000..U+200A, LS, PS, U+202F,
    U+205F, U+3000 and U+FEFF. *)
Definition isWhiteSpace (c : codeunit) : bool :=
  between 9 13 c || (c =? 32) || (c =? 160) || (c =? 5760)
  || between 8192 8202 c || (c =? 8232) || (c =? 8233)
  || (c =? 8239) || (c =? 8287) || (c =? 12288) || (c =? 65279).

(** The ASCII part of [toLowerCase]: A..Z move to a..z, every other ASCII
    code unit stays. *)
Definition asciiLower (c : codeunit) : codeunit :=
  if isUpperAZ c then c + 32 else c.

Section ToLowerCase.

(** Outside ASCII, [String.prototype.toLowerCase] follows the Unicode
    case tables of the engine: a code unit is replaced by zero or more
    code units, and the replacement may depend on what stands before and
    after it (the second half of a surrogate pair, the final sigma).  The
    table is a parameter: [lowerOther before c after] is what the code
    unit [c] becomes, [before] being the code units to its left, nearest
    first. *)
Variable lowerOther : jsstring -> codeunit -> jsstring -> jsstring.

Fixpoint toLowerCaseFrom (before s : jsstring) : jsstring :=
  match s with
  | [] => []
  | c :: rest =>
      (if isAscii c then [asciiLower c] else lowerOther before c rest)
        ++ toLowerCaseFrom (c :: before) rest
  end.

Definition toLowerCase (s : jsstring) : jsstring := toLowerCaseFrom [] s.

(** [s.replace(/[^...]/g, '')] for a negated class: the code units of
    the class stay, the others are deleted. *)
Definition removeNotIn (cls : codeunit -> bool) (s : jsstring) : jsstring :=
  filter cls s.

(** [s.replace(/C+/g, rep)] for a character class [C]: every maximal run
    of code units of the class becomes one [rep].  [inRun] tells that the
    code unit just read belonged to the class. *)
Fixpoint replaceRunsFrom (cls : codeunit -> bool) (rep : jsstring)
         (inRun : bool) (s : jsstring) : jsstring :=
  match s with
  | [] => []
  | c :: rest =>
      if cls c
      then (if inRun then [] else rep) ++ replaceRunsFrom cls rep true rest
      else c :: replaceRunsFrom cls rep false rest
  end.

Definition replaceRuns (cls : codeunit -> bool) (rep s : jsstring) : jsstring :=
  replaceRunsFrom cls rep false s.

Fixpoint dropWhile (p : codeunit -> bool) (s : jsstring) : jsstring :=
  match s with
  | [] => []
  | c :: rest => if p c then dropWhile p rest else s
  end.

Definition trimStart (s : jsstring) : jsstring := dropWhile isWhiteSpace s.
Definition trimEnd (s : jsstring) : jsstring :=
  rev (dropWhile isWhiteSpace (rev s)).
Definition trim (s : jsstring) : jsstring := trimEnd (trimStart s).

(** The class [[a-z0-9\s-]] whose complement the first replace deletes. *)
Definition slugSource (c : codeunit) : bool :=
  isLowerAZ c || isDigit c || isWhiteSpace c || isHyphen c.

(** generateSlug of the page-management view:
    title.toLowerCase()
         .replace(/[^a-z0-9\s-]/g, '')
         .replace(/\s+/g, '-')
         .replace(/-+/g, '-')
         .trim() *)
Definition generateSlug (title : jsstring) : jsstring :=
  trim
    (replaceRuns isHyphen [HYPHEN]
       (replaceRuns isWhiteSpace [HYPHEN]
          (removeNotIn slugSource
             (toLowerCase title)))).

(** What a slug is made of: a..z, 0..9 and the hyphen. *)
Definition isSlugChar (c : codeunit) : bool :=
  isLowerAZ c || isDigit c || isHyphen c.

(** A string made of slug characters only. *)
Definition slugish (s : jsstring) : Prop :=
  Forall (fun c => isSlugChar c = true) s.

(** The string as it stands before the final [trim]. *)
Definition hyphenated (title : jsstring) : jsstring :=
  replaceRuns isHyphen [HYPHEN]
    (replaceRuns isWhiteSpace [HYPHEN]
       (removeNotIn slugSource (toLowerCase title))).

End ToLowerCase.

(** A case table that leaves every code unit outside ASCII as it is; it
    serves where a title is plain ASCII and the table is never consulted. *)
Definition lowerOther_keep : jsstring -> codeunit -> jsstring -> jsstring :=
  fun _ c _ => [c].

End JS.

(* ===================================================================== *)
(** ** The store: schema, constraints and row-level security              *)
(* ===================================================================== *)

Module Store.

Local Open Scope N_scope.

(** UUID and TIMESTAMP WITH TIME ZONE values; TEXT is a string. *)
Definition uuid := N.
Definition timestamp := N.
Definition text := JS.jsstring.

Fixpoint text_eqb (a b : text) : bool :=
  match a, b with
  | [], [] => true
  | x :: a', y :: b' => (x =? y) && text_eqb a' b'
  | _, _ => false
  end.

(** CREATE TABLE public.feedback_pages: every column but [description] is
    NOT NULL. *)
Record feedback_pages_row := {
  id : uuid;
  user_id : uuid;
  title : text;
  description : option text;
  slug : text;
  is_active : bool;
  created_at : timestamp;
  updated_at : timestamp
}.

(** public.feedback, with the two columns ALTER TABLE adds; the page
    reference is nullable. *)
Record feedback_row := {
  fb_id : uuid;
  message : text;
  fb_created_at : timestamp;
  feedback_page_id : option uuid;
  fb_updated_at : timestamp
}.

Record db := {
  feedback_pages : list feedback_pages_row;
  feedback : list feedback_row
}.

Definition empty_db : db := {| feedback_pages := []; feedback := [] |}.

(** *** SQL booleans: NULL is [None] *)

Definition sql_bool := option bool.

(** [a = b]: NULL as soon as one side is NULL. *)
Definition sql_eq (a b : option uuid) : sql_bool :=
  match a, b with
  | Some x, Some y => Some (x =? y)
  | _, _ => None
  end.

(** [a IN (subquery)] for a subquery whose column is never NULL. *)
Definition sql_in (a : option uuid) (l : list uuid) : sql_bool :=
  match a with
  | Some x => Some (existsb (N.eqb x) l)
  | None => match l with [] => Some false | _ => None end
  end.

(** A policy or a WHERE clause lets a row through only when its expression
    is true, not when it is false or NULL. *)
Definition is_true (b : sql_bool) : bool :=
  match b with Some true => true | _ => false end.

(** *** Policies *)

Inductive command := SELECT | INSERT | UPDATE | DELETE.

Definition command_eqb (a b : command) : bool :=
  match a, b with
  | SELECT, SELECT | INSERT, INSERT | UPDATE, UPDATE | DELETE, DELETE => true
  | _, _ => false
  end.

(** CREATE POLICY name ON table FOR command USING (..) WITH CHECK (..).
    The expressions see auth.uid() (NULL for an anonymous caller), the
    tables and the row. *)
Record policy (row : Type) := {
  pol_name : string;
  pol_for : command;
  pol_using : option (option uuid -> db -> row -> sql_bool);
  pol_with_check : option (option uuid -> db -> row -> sql_bool)
}.

Definition own_page (auth_uid : option uuid) (_ : db) (r : feedback_pages_row)
  : sql_bool :=
  sql_eq auth_uid (Some (user_id r)).

Definition feedback_pages_policies : list (policy feedback_pages_row) :=
  [ {| pol_name := "Users can view their own feedback pages";
       pol_for := SELECT;
       pol_using := Some own_page; pol_with_check := None |};
    {| pol_name := "Users can create their own feedback pages";
       pol_for := INSERT;
       pol_using := None; pol_with_check := Some own_page |};
    {| pol_name := "Users can update their own feedback pages";
       pol_for := UPDATE;
       pol_using := Some own_page; pol_with_check := None |};
    {| pol_name := "Users can delete their own feedback pages";
       pol_for := DELETE;
       pol_using := Some own_page; pol_with_check := None |};
    {| pol_name := "Anyone can view active feedback pages";
       pol_for := SELECT;
       pol_using := Some (fun _ _ r => Some (Bool.eqb (is_active r) true));
       pol_with_check := None |} ].

(** Permissive policies of one command are OR-ed; with row-level security
    enabled and no policy for a command, nothing passes. *)
Definition passes_using {row} (pols : list (policy row)) (cmd : command)
           (auth_uid : option uuid) (d : db) (r : row) : bool :=
  existsb (fun p =>
             command_eqb (pol_for p) cmd &&
             match pol_using p with
             | Some e => is_true (e auth_uid d r)
             | None => true
             end) pols.

(** The check on a new row: WITH CHECK, and USING where a policy gives no
    WITH CHECK. *)
Definition passes_check {row} (pols : list (policy row)) (cmd : command)
           (auth_uid : option uuid) (d : db) (r : row) : bool :=
  existsb (fun p =>
             command_eqb (pol_for p) cmd &&
             match pol_with_check p, pol_using p with
             | Some e, _ => is_true (e auth_uid d r)
             | None, Some e => is_true (e auth_uid d r)
             | None, None => true
             end) pols.

(** What the row policies of feedback_pages answer for one command, one
    caller and one row (for INSERT the row is the new row). *)
Definition page_permitted (cmd : command) (auth_uid : option uuid) (d : db)
           (r : feedback_pages_row) : bool :=
  match cmd with
  | INSERT => passes_check feedback_pages_policies INSERT auth_uid d r
  | _ => passes_using feedback_pages_policies cmd auth_uid d r
  end.

(** SELECT ... FROM public.feedback_pages WHERE w, as the caller. *)
Definition select_pages (auth_uid : option uuid) (d : db)
           (w : feedback_pages_row -> bool) : list feedback_pages_row :=
  filter w (filter (page_permitted SELECT auth_uid d) (feedback_pages d)).

(** SELECT id FROM public.feedback_pages WHERE is_active = true: the
    subquery of the two feedback policies, run as the caller. *)
Definition active_page_ids (auth_uid : option uuid) (d : db) : list uuid :=
  map id (select_pages auth_uid d (fun r => Bool.eqb (is_active r) true)).

Definition on_active_page (auth_uid : option uuid) (d : db) (r : feedback_row)
  : sql_bool :=
  sql_in (feedback_page_id r) (active_page_ids auth_uid d).

Definition feedback_policies : list (policy feedback_row) :=
  [ {| pol_name := "Anyone can view feedback for active pages";
       pol_for := SELECT;
       pol_using := Some on_active_page; pol_with_check := None |};
    {| pol_name := "Anyone can create feedback for active pages";
       pol_for := INSERT;
       pol_using := None; pol_with_check := Some on_active_page |} ].

(** The statement that created public.feedback and switched its row-level
    security on comes before the migrations at hand, which only replace its
    two policies; the table is taken to have row-level security enabled, as
    the two others have. *)

Definition feedback_permitted (cmd : command) (auth_uid : option uuid) (d : db)
           (r : feedback_row) : bool :=
  match cmd with
  | INSERT => passes_check feedback_policies INSERT auth_uid d r
  | _ => passes_using feedback_policies cmd auth_uid d r
  end.

Definition select_feedback (auth_uid : option uuid) (d : db)
           (w : feedback_row -> bool) : list feedback_row :=
  filter w (filter (feedback_permitted SELECT auth_uid d) (feedback d)).

(** *** Results *)

Inductive store_error :=
| RlsViolation
| NotNullViolation
| UniqueViolation
| ForeignKeyViolation
| NotASingleRow.

Inductive result (A : Type) :=
| Ok (a : A)
| Err (e : store_error).
Arguments Ok {A} a.
Arguments Err {A} e.

(** [.single()]: exactly one row, or an error. *)
Definition single {A} (rows : list A) : result A :=
  match rows with
  | [r] => Ok r
  | _ => Err NotASingleRow
  end.

(** [.order('created_at', { ascending: false })]. *)
Section OrderBy.
Variable A : Type.
Variable key : A -> timestamp.

Fixpoint insert_desc (x : A) (l : list A) : list A :=
  match l with
  | [] => [x]
  | y :: l' => if key y <=? key x then x :: l else y :: insert_desc x l'
  end.

Fixpoint order_desc (l : list A) : list A :=
  match l with
  | [] => []
  | x :: l' => insert_desc x (order_desc l')
  end.
End OrderBy.

(** *** Writes *)

(** The object [createPage] hands to [insert]; [user?.id] is absent when
    there is no user, which leaves the column NULL. *)
Record page_insert := {
  ins_title : text;
  ins_description : text;
  ins_slug : text;
  ins_user_id : option uuid
}.

Definition slug_taken (s : text) (rows : list feedback_pages_row) : bool :=
  existsb (fun r => text_eqb (slug r) s) rows.

Definition id_taken (i : uuid) (rows : list feedback_pages_row) : bool :=
  existsb (fun r => id r =? i) rows.

(** INSERT INTO public.feedback_pages.  [fresh] is what gen_random_uuid()
    draws and [now] what now() reads.  A NULL user_id fails the WITH CHECK
    (auth.uid() = NULL is NULL) as it fails NOT NULL.  The statement either
    appends the whole row or leaves the tables as they were. *)
Definition insert_feedback_page (auth_uid : option uuid) (fresh : uuid)
           (now : timestamp) (v : page_insert) (d : db)
  : result feedback_pages_row * db :=
  match ins_user_id v with
  | None => (Err RlsViolation, d)
  | Some owner =>
      let r := {| id := fresh; user_id := owner;
                  title := ins_title v;
                  description := Some (ins_description v);
                  slug := ins_slug v;
                  is_active := true;
                  created_at := now; updated_at := now |} in
      if negb (page_permitted INSERT auth_uid d r) then (Err RlsViolation, d)
      else if id_taken fresh (feedback_pages d) then (Err UniqueViolation, d)
      else if slug_taken (ins_slug v) (feedback_pages d)
           then (Err UniqueViolation, d)
      else (Ok r, {| feedback_pages := feedback_pages d ++ [r];
                     feedback := feedback d |})
  end.

(** The object [submitFeedback] hands to [insert]; [page?.id] is absent
    when no page is loaded. *)
Record feedback_insert := {
  ins_message : text;
  ins_feedback_page_id : option uuid
}.

Definition insert_feedback (auth_uid : option uuid) (fresh : uuid)
           (now : timestamp) (v : feedback_insert) (d : db)
  : result feedback_row * db :=
  let r := {| fb_id := fresh; message := ins_message v;
              fb_created_at := now;
              feedback_page_id := ins_feedback_page_id v;
              fb_updated_at := now |} in
  if negb (feedback_permitted INSERT auth_uid d r) then (Err RlsViolation, d)
  else if existsb (fun f => fb_id f =? fresh) (feedback d)
       then (Err UniqueViolation, d)
  else if match ins_feedback_page_id v with
          | Some p => negb (id_taken p (feedback_pages d))
          | None => false
          end
       then (Err ForeignKeyViolation, d)
  else (Ok r, {| feedback_pages := feedback_pages d;
                 feedback := feedback d ++ [r] |}).

(** UNIQUE (slug) and PRIMARY KEY (id) over a whole table. *)
Fixpoint slugs_unique (rows : list feedback_pages_row) : bool :=
  match rows with
  | [] => true
  | r :: rest => negb (slug_taken (slug r) rest) && slugs_unique rest
  end.

Fixpoint ids_unique (rows : list feedback_pages_row) : bool :=
  match rows with
  | [] => true
  | r :: rest => negb (id_taken (id r) rest) && ids_unique rest
  end.

(** UPDATE public.feedback_pages SET .. WHERE w.  Only the rows the UPDATE
    policy lets the caller through are touched; each new row must pass the
    check, the table must still satisfy its keys and no feedback may lose
    its page, or the statement fails as a whole.  The trigger update_feedback_pages_updated_at stamps
    updated_at. *)
Definition update_feedback_pages (auth_uid : option uuid) (now : timestamp)
           (w : feedback_pages_row -> bool)
           (set : feedback_pages_row -> feedback_pages_row) (d : db)
  : result unit * db :=
  let hit r := page_permitted UPDATE auth_uid d r && w r in
  let stamp r := {| id := id r; user_id := user_id r; title := title r;
                    description := description r; slug := slug r;
                    is_active := is_active r; created_at := created_at r;
                    updated_at := now |} in
  let rows' := map (fun r => if hit r then stamp (set r) else r)
                   (feedback_pages d) in
  if negb (forallb (fun r => negb (hit r) ||
                             passes_check feedback_pages_policies UPDATE
                                          auth_uid d (stamp (set r)))
                   (feedback_pages d))
  then (Err RlsViolation, d)
  else if negb (ids_unique rows' && slugs_unique rows')
       then (Err UniqueViolation, d)
  else if existsb (fun f => match feedback_page_id f with
                            | Some p => negb (id_taken p rows')
                            | None => false
                            end) (feedback d)
       then (Err ForeignKeyViolation, d)
  else (Ok tt, {| feedback_pages := rows'; feedback := feedback d |}).

(** DELETE FROM public.feedback_pages WHERE w; ON DELETE CASCADE removes
    the feedback of the deleted pages. *)
Definition delete_feedback_pages (auth_uid : option uuid)
           (w : feedback_pages_row -> bool) (d : db) : result unit * db :=
  let hit r := page_permitted DELETE auth_uid d r && w r in
  let rows' := filter (fun r => negb (hit r)) (feedback_pages d) in
  (Ok tt,
   {| feedback_pages := rows';
      feedback :=
        filter (fun f => match feedback_page_id f with
                         | Some p => negb (id_taken p (filter hit (feedback_pages d)))
                         | None => true
                         end) (feedback d) |}).

(** Whether [p] names a page that is active. *)
Definition page_is_active (d : db) (p : option uuid) : bool :=
  match p with
  | Some i => existsb (fun r => (id r =? i) && is_active r) (feedback_pages d)
  | None => false
  end.

(** One statement run against the store, by any caller. *)
Inductive store_step : db -> db -> Prop :=
| step_insert_page uid fresh now v d :
    store_step d (snd (insert_feedback_page uid fresh now v d))
| step_update_pages uid now w set d :
    store_step d (snd (update_feedback_pages uid now w set d))
| step_delete_pages uid w d :
    store_step d (snd (delete_feedback_pages uid w d))
| step_insert_feedback uid fresh now v d :
    store_step d (snd (insert_feedback uid fresh now v d)).

(** The states the store can be in: the empty tables and what statements
    make of them. *)
Inductive reachable : db -> Prop :=
| reach_empty : reachable empty_db
| reach_step d d' : reachable d -> store_step d d' -> reachable d'.

(** A page of owner B, active, and a caller A. *)
Definition page_of_B : feedback_pages_row :=
  {| id := 10; user_id := 2; title := JS.lit "Team retro";
     description := None; slug := JS.lit "team-retro"; is_active := true;
     created_at := 1000; updated_at := 1000 |}.

Definition caller_A : uuid := 1.

Definition db_of_B : db := {| feedback_pages := [page_of_B]; feedback := [] |}.

End Store.

(* ===================================================================== *)
(** ** The views                                                          *)
(* ===================================================================== *)

Module App.

Import Store.

(** What a view does to the outside: notifications, navigation, console
    output and the requests it sends to the store. *)
Inductive request :=
| SelectPages
| SelectPageBySlug (s : text)
| SelectPageByIdAndOwner (page_id : uuid) (owner : option uuid)
| SelectFeedbackOfPage (page_id : uuid)
| InsertPage (v : page_insert)
| InsertFeedback (v : feedback_insert).

Inductive event :=
| Toast (title description : string) (destructive : bool)
| Navigate (path : string)
| ConsoleError (label : string)
| StoreRequest (r : request).

(** The world a view runs in: the store, the session of the store client
    (which is also the user useAuth reports) and what has happened so far,
    oldest first. *)
Record world := {
  store : db;
  session : option uuid;
  trace : list event
}.

(** A small state monad over the world. *)
Definition M (A : Type) := world -> A * world.

Definition ret {A} (a : A) : M A := fun w => (a, w).

Definition bind {A B} (m : M A) (k : A -> M B) : M B :=
  fun w => let (a, w') := m w in k a w'.

Notation "x <- m ;; k" := (bind m (fun x => k))
  (at level 61, m at next level, right associativity).
Notation "m ;;; k" := (bind m (fun _ => k))
  (at level 61, right associativity).

Definition emit (e : event) : M unit :=
  fun w => (tt, {| store := store w; session := session w;
                   trace := trace w ++ [e] |}).

Definition toast (title description : string) (destructive : bool) : M unit :=
  emit (Toast title description destructive).

Definition current_user : M (option uuid) := fun w => (session w, w).

(** A read request: logged, answered from the store as the session's
    caller.  Every request reaches the store: the only errors a handler
    sees are the store's own. *)
Definition query {A} (r : request) (q : option uuid -> db -> A) : M A :=
  fun w => (q (session w) (store w),
            {| store := store w; session := session w;
               trace := trace w ++ [StoreRequest r] |}).

(** A write request: logged, and the store moves to its new state. *)
Definition mutate {A} (r : request) (q : option uuid -> db -> A * db) : M A :=
  fun w => let (a, d') := q (session w) (store w) in
           (a, {| store := d'; session := session w;
                  trace := trace w ++ [StoreRequest r] |}).

(** The requests a trace holds. *)
Definition is_request (e : event) : bool :=
  match e with StoreRequest _ => true | _ => false end.

Definition requests (t : list event) : list event := filter is_request t.

(** The same world over another store, and with more events. *)
Definition with_store (d : db) (w : world) : world :=
  {| store := d; session := session w; trace := trace w |}.

Definition and_then (w : world) (es : list event) : world :=
  {| store := store w; session := session w; trace := trace w ++ es |}.

(** What gen_random_uuid() and now() give the one insert a handler makes. *)
Record entropy := { fresh_id : uuid; now : timestamp }.

Definition is_empty (s : text) : bool :=
  match s with [] => true | _ => false end.

Section Views.

Variable lowerOther : JS.jsstring -> JS.codeunit -> JS.jsstring -> JS.jsstring.

(** *** Page-management view (FeedbackPages) *)

Record formData := {
  fd_title : text;
  fd_description : text;
  fd_slug : text
}.

Record pagesState := {
  pages : list feedback_pages_row;
  loading : bool;
  showCreateForm : bool;
  form : formData
}.

Definition empty_form : formData :=
  {| fd_title := []; fd_description := []; fd_slug := [] |}.

Definition pages_initial : pagesState :=
  {| pages := []; loading := true; showCreateForm := false;
     form := empty_form |}.

Definition fetchPages (st : pagesState) : M pagesState :=
  data <- query SelectPages
            (fun uid d => order_desc created_at
                            (select_pages uid d (fun _ => true))) ;;
  ret {| pages := data; loading := false;
         showCreateForm := showCreateForm st; form := form st |}.

Definition handleTitleChange (title : text) (st : pagesState) : pagesState :=
  {| pages := pages st; loading := loading st;
     showCreateForm := showCreateForm st;
     form := {| fd_title := title;
                fd_description := fd_description (form st);
                fd_slug := JS.generateSlug lowerOther title |} |}.

(** The slug field stays editable after the derivation. *)
Definition handleSlugChange (s : text) (st : pagesState) : pagesState :=
  {| pages := pages st; loading := loading st;
     showCreateForm := showCreateForm st;
     form := {| fd_title := fd_title (form st);
                fd_description := fd_description (form st);
                fd_slug := s |} |}.

(** The object createPage builds from the form and the user. *)
Definition page_payload (st : pagesState) (user : option uuid) : page_insert :=
  {| ins_title := fd_title (form st);
     ins_description := fd_description (form st);
     ins_slug := fd_slug (form st);
     ins_user_id := user |}.

Definition createPage (e : entropy) (st : pagesState) : M pagesState :=
  if is_empty (JS.trim (fd_title (form st))) then
    toast "Error" "Title is required" true ;;;
    ret st
  else
    user <- current_user ;;
    let v := page_payload st user in
    r <- mutate (InsertPage v)
           (fun uid d => insert_feedback_page uid (fresh_id e) (now e) v d) ;;
    match r with
    | Err _ =>
        toast "Error" "Failed to create feedback page" true ;;;
        ret st
    | Ok _ =>
        toast "Success" "Feedback page created successfully" false ;;;
        fetchPages {| pages := pages st; loading := loading st;
                      showCreateForm := false; form := empty_form |}
    end.

(** *** Public submission view (PublicFeedback) *)

Record publicState := {
  pub_page : option feedback_pages_row;
  pub_loading : bool;
  submitting : bool;
  pub_message : text;
  submitted : bool
}.

Definition public_initial : publicState :=
  {| pub_page := None; pub_loading := true; submitting := false;
     pub_message := []; submitted := false |}.

Definition set_pub_loaded (p : option feedback_pages_row) (st : publicState)
  : publicState :=
  {| pub_page := p; pub_loading := false; submitting := submitting st;
     pub_message := pub_message st; submitted := submitted st |}.

(** [.eq('slug', slug).eq('is_active', true)] *)
Definition by_slug (s : text) (r : feedback_pages_row) : bool :=
  text_eqb (slug r) s && Bool.eqb (is_active r) true.

(** The route may give no slug; an empty one is falsy all the same. *)
Definition fetchPage (route_slug : option text) (st : publicState)
  : M publicState :=
  match route_slug with
  | None | Some [] => ret (set_pub_loaded (pub_page st) st)
  | Some s =>
      r <- query (SelectPageBySlug s)
             (fun uid d =>
                single (select_pages uid d (by_slug s))) ;;
      match r with
      | Ok data => ret (set_pub_loaded (Some data) st)
      | Err _ =>
          emit (ConsoleError "Error fetching page:") ;;;
          ret (set_pub_loaded (pub_page st) st)
      end
  end.

(** The object submitFeedback builds from the message and the page. *)
Definition feedback_payload (st : publicState) : feedback_insert :=
  {| ins_message := JS.trim (pub_message st);
     ins_feedback_page_id := option_map id (pub_page st) |}.

Definition submitFeedback (e : entropy) (st : publicState) : M publicState :=
  if is_empty (JS.trim (pub_message st)) then
    toast "Error" "Please enter your feedback" true ;;;
    ret st
  else
    let v := feedback_payload st in
    r <- mutate (InsertFeedback v)
           (fun uid d => insert_feedback uid (fresh_id e) (now e) v d) ;;
    match r with
    | Ok _ =>
        toast "Success" "Thank you for your feedback!" false ;;;
        ret {| pub_page := pub_page st; pub_loading := pub_loading st;
               submitting := false; pub_message := pub_message st;
               submitted := true |}
    | Err _ =>
        emit (ConsoleError "Error submitting feedback:") ;;;
        toast "Error" "Failed to submit feedback. Please try again." true ;;;
        ret {| pub_page := pub_page st; pub_loading := pub_loading st;
               submitting := false; pub_message := pub_message st;
               submitted := submitted st |}
    end.

Inductive public_screen :=
| PubLoading
| PubNotFound
| PubThankYou
| PubForm (page_title : text) (page_description : option text)
          (message_field : text) (busy : bool).

Definition public_render (st : publicState) : public_screen :=
  if pub_loading st then PubLoading
  else match pub_page st with
       | None => PubNotFound
       | Some p =>
           if submitted st then PubThankYou
           else PubForm (title p) (description p) (pub_message st)
                        (submitting st)
       end.

(** *** Feedback-review view (ViewFeedback) *)

Record reviewState := {
  rev_page : option feedback_pages_row;
  rev_feedback : list feedback_row;
  rev_loading : bool
}.

Definition review_initial : reviewState :=
  {| rev_page := None; rev_feedback := []; rev_loading := true |}.

(** [.eq('id', pageId).eq('user_id', user?.id)]; the identifier of the
    route is taken as a UUID already. *)
Definition by_id_and_owner (pageId : uuid) (user : option uuid)
           (r : feedback_pages_row) : bool :=
  (id r =? pageId)%N && is_true (sql_eq (Some (user_id r)) user).

(** [.eq('feedback_page_id', pageId)] *)
Definition of_page (pageId : uuid) (f : feedback_row) : bool :=
  is_true (sql_eq (feedback_page_id f) (Some pageId)).

Definition fetchPageAndFeedback (pageId : uuid) (st : reviewState)
  : M reviewState :=
  user <- current_user ;;
  r <- query (SelectPageByIdAndOwner pageId user)
         (fun uid d =>
            single (select_pages uid d (by_id_and_owner pageId user))) ;;
  match r with
  | Err _ =>
      emit (ConsoleError "Error fetching data:") ;;;
      toast "Error" "Failed to load feedback page" true ;;;
      emit (Navigate "/pages") ;;;
      ret {| rev_page := rev_page st; rev_feedback := rev_feedback st;
             rev_loading := false |}
  | Ok pageData =>
      feedbackData <- query (SelectFeedbackOfPage pageId)
                        (fun uid d =>
                           order_desc fb_created_at
                             (select_feedback uid d (of_page pageId))) ;;
      ret {| rev_page := Some pageData; rev_feedback := feedbackData;
             rev_loading := false |}
  end.

(** The effect run on mount: without a user go to the sign-in view, with
    a user load the page. *)
Definition review_mount (authLoading : bool) (pageId : option uuid)
           (st : reviewState) : M reviewState :=
  user <- current_user ;;
  match user, pageId with
  | None, _ =>
      if authLoading then ret st else emit (Navigate "/auth") ;;; ret st
  | Some _, Some p => fetchPageAndFeedback p st
  | Some _, None => ret st
  end.

(** [feedback.map((item, index) => ... #{feedback.length - index} ...)] *)
Fixpoint label_from (total : Z) (index : Z) (l : list feedback_row)
  : list (Z * feedback_row) :=
  match l with
  | [] => []
  | item :: rest => (total - index, item)%Z :: label_from total (index + 1)%Z rest
  end.

Definition labelled (l : list feedback_row) : list (Z * feedback_row) :=
  label_from (Z.of_nat (List.length l)) 0%Z l.

(** [a] stands before [b] when it was created no earlier. *)
Definition newer_first (a b : feedback_row) : Prop :=
  (fb_created_at b <= fb_created_at a)%N.

Inductive review_screen :=
| RevLoading
| RevNotFound
| RevPage (page : feedback_pages_row) (total : nat)
          (items : list (Z * feedback_row)).

Definition review_render (authLoading : bool) (st : reviewState)
  : review_screen :=
  if authLoading || rev_loading st then RevLoading
  else match rev_page st with
       | None => RevNotFound
       | Some p => RevPage p (List.length (rev_feedback st))
                           (labelled (rev_feedback st))
       end.

End Views.

(** Sample data: a signed-in owner in front of an empty store, the
    identifier and time the next insert draws, and a few forms. *)
Definition owner_world : world :=
  {| store := empty_db; session := Some 1%N; trace := [] |}.

Definition draw : entropy := {| fresh_id := 10%N; now := 1000%N |}.

Definition form_with_title (t : string) : pagesState :=
  handleTitleChange JS.lowerOther_keep (JS.lit t) pages_initial.

(** The store after owner 1 created the page "Team retro", seen by
    another signed-in user, 2. *)
Definition rival_world : world :=
  {| store := store (snd (createPage draw (form_with_title "Team retro")
                                     owner_world));
     session := Some 2%N; trace := [] |}.

(** Anonymous visitors in front of the store of [rival_world], before and
    after owner 1 switched the page off. *)
Definition visitor_world : world :=
  {| store := store rival_world; session := None; trace := [] |}.

Definition closed_world : world :=
  {| store := snd (update_feedback_pages (Some 1%N) 3000%N (fun _ => true)
                     (fun r => {| id := id r; user_id := user_id r;
                                  title := title r;
                                  description := description r;
                                  slug := slug r; is_active := false;
                                  created_at := created_at r;
                                  updated_at := updated_at r |})
                     (store rival_world));
     session := None; trace := [] |}.

(** Owner 1 in front of a page with three pieces of feedback, stored in an
    order that is not the order of their creation. *)
Definition note (i : uuid) (m : string) (t : timestamp) : feedback_row :=
  {| fb_id := i; message := JS.lit m; fb_created_at := t;
     feedback_page_id := Some 10%N; fb_updated_at := t |}.

Definition busy_world : world :=
  {| store := {| feedback_pages := feedback_pages (store rival_world);
                 feedback := [note 21%N "first" 100%N;
                              note 22%N "third" 300%N;
                              note 23%N "second" 200%N] |};
     session := Some 1%N; trace := [] |}.

Definition message_typed (m : string) (st : publicState) : publicState :=
  {| pub_page := pub_page st; pub_loading := pub_loading st;
     submitting := submitting st; pub_message := JS.lit m;
     submitted := submitted st |}.

End App.

(* ===================================================================== *)
(** ** Profiles and the sign-up trigger                                   *)
(* ===================================================================== *)

Module Profiles.

Import Store.
Local Open Scope N_scope.

(** CREATE TABLE public.profiles; user_id is UNIQUE, display_name and
    email may be NULL. *)
Record profiles_row := {
  pr_id : uuid;
  pr_user_id : uuid;
  display_name : option text;
  email : option text;
  pr_created_at : timestamp;
  pr_updated_at : timestamp
}.

Definition own_profile (auth_uid : option uuid) (_ : db) (r : profiles_row)
  : sql_bool :=
  sql_eq auth_uid (Some (pr_user_id r)).

(** The three policies of profiles; there is none FOR DELETE. *)
Definition profiles_policies : list (policy profiles_row) :=
  [ {| pol_name := "Users can view their own profile";
       pol_for := SELECT;
       pol_using := Some own_profile; pol_with_check := None |};
    {| pol_name := "Users can create their own profile";
       pol_for := INSERT;
       pol_using := None; pol_with_check := Some own_profile |};
    {| pol_name := "Users can update their own profile";
       pol_for := UPDATE;
       pol_using := Some own_profile; pol_with_check := None |} ].

Definition profile_permitted (cmd : command) (auth_uid : option uuid) (d : db)
           (r : profiles_row) : bool :=
  match cmd with
  | INSERT => passes_check profiles_policies INSERT auth_uid d r
  | _ => passes_using profiles_policies cmd auth_uid d r
  end.

(** The row of auth.users the trigger sees as NEW: its id, its email and
    what [raw_user_meta_data ->> key] gives for a key (NULL when the key is
    absent). *)
Record auth_user := {
  au_id : uuid;
  au_email : option text;
  au_meta : string -> option text
}.

(** COALESCE: the first argument that is not NULL. *)
Fixpoint coalesce (vs : list (option text)) : option text :=
  match vs with
  | [] => None
  | Some v :: _ => Some v
  | None :: rest => coalesce rest
  end.

(** public.handle_new_user(), run AFTER INSERT ON auth.users.  It is
    SECURITY DEFINER, so no policy stands in its way; the keys of profiles
    do: PRIMARY KEY (id) and UNIQUE (user_id). *)
Definition handle_new_user (fresh : uuid) (now : timestamp) (new : auth_user)
           (profiles : list profiles_row)
  : result profiles_row * list profiles_row :=
  let r := {| pr_id := fresh; pr_user_id := au_id new;
              display_name :=
                coalesce [au_meta new "display_name";
                          au_meta new "full_name";
                          Some (JS.lit "Anonymous")];
              email := au_email new;
              pr_created_at := now; pr_updated_at := now |} in
  if existsb (fun q => pr_id q =? fresh) profiles
  then (Err UniqueViolation, profiles)
  else if existsb (fun q => pr_user_id q =? au_id new) profiles
       then (Err UniqueViolation, profiles)
  else (Ok r, profiles ++ [r]).

(** The profiles tables sign-ups can produce. *)
Inductive signed_up : list profiles_row -> Prop :=
| nobody_yet : signed_up []
| one_more fresh now new profiles :
    signed_up profiles ->
    signed_up (snd (handle_new_user fresh now new profiles)).

(** A sign-up form that gave a full name and no display name. *)
Definition ada : auth_user :=
  {| au_id := 7; au_email := Some (JS.lit "ada@example.org");
     au_meta := fun k => if String.eqb k "full_name"
                         then Some (JS.lit "Ada L.") else None |}.

(** The profile the trigger writes for a new user when it draws the
    identifier 1 at time 100. *)
Definition note_profile (new : auth_user) : profiles_row :=
  {| pr_id := 1; pr_user_id := au_id new;
     display_name :=
       coalesce [au_meta new "display_name"; au_meta new "full_name";
                 Some (JS.lit "Anonymous")];
     email := au_email new; pr_created_at := 100; pr_updated_at := 100 |}.

End Profiles.

(* ===================================================================== *)
(** ** More of the views, and words for the statements                    *)
(* ===================================================================== *)

Module Wall.

Import Store App.



(** No two hyphens side by side. *)
Fixpoint hyphen_pair_free (s : JS.jsstring) : bool :=
  match s with
  | c :: (d :: _) as rest =>
      negb (JS.isHyphen c && JS.isHyphen d) && hyphen_pair_free rest
  | _ => true
  end.

Definition starts_with_hyphen (s : JS.jsstring) : bool :=
  match s with
  | c :: _ => JS.isHyphen c
  | [] => false
  end.

(** Every piece of feedback belongs to a page of the store. *)
Definition references_kept (d : db) : Prop :=
  forall f, In f (feedback d) ->
            exists p, In p (feedback_pages d) /\ feedback_page_id f = Some (id p).

(** The world another caller sees, and the world after something else
    changed the store. *)
Definition as_caller (u : option uuid) (w : world) : world :=
  {| store := store w; session := u; trace := trace w |}.

(** Owner 1 in front of the page "team-retro" once it is switched off,
    with the three pieces of feedback it received while it was on. *)
Definition silent_world : world :=
  {| store := {| feedback_pages := feedback_pages (store closed_world);
                 feedback := feedback (store busy_world) |};
     session := Some 1%N; trace := [] |}.

(** An anonymous visitor who has loaded "team-retro" and typed a message
    with a space at either end. *)
Definition visitor_typing : publicState :=
  message_typed " Great product! "
    (fst (fetchPage (Some (JS.lit "team-retro")) public_initial visitor_world)).

Definition draw_note : entropy := {| fresh_id := 30%N; now := 5000%N |}.

End Wall.

Unset Implicit Arguments.

(* ===================================================================== *)
(** ** Slug derivation                                                    *)
(* ===================================================================== *)

Section SlugFacts.

Import JS.
Local Open Scope N_scope.

Variable lowerOther : jsstring -> codeunit -> jsstring -> jsstring.

Ltac classes :=
  unfold isSlugChar, slugSource, isWhiteSpace, isLowerAZ, isUpperAZ, isDigit,
    isHyphen, isAscii, HYPHEN, between in *.

Ltac to_props :=
  repeat rewrite ?orb_true_iff, ?andb_true_iff, ?orb_false_iff,
    ?andb_false_iff, ?N.leb_le, ?N.leb_gt, ?N.eqb_eq, ?N.eqb_neq,
    ?N.ltb_lt, ?N.ltb_ge in *.

Lemma slugChar_not_space c : isSlugChar c = true -> isWhiteSpace c = false.
Proof.
  intro H. destruct (isWhiteSpace c) eqn:E; [exfalso | reflexivity].
  classes. to_props. lia.
Qed.

Lemma slugChar_source c : isSlugChar c = true -> slugSource c = true.
Proof. classes. to_props. intuition. Qed.

Lemma source_not_space_slugChar c :
  slugSource c = true -> isWhiteSpace c = false -> isSlugChar c = true.
Proof.
  unfold slugSource, isSlugChar. intros H E. rewrite E in H.
  destruct (isLowerAZ c), (isDigit c), (isHyphen c); simpl in *; congruence.
Qed.

Lemma slugChar_ascii c : isSlugChar c = true -> isAscii c = true.
Proof. classes. to_props. lia. Qed.

Lemma slugChar_lower c : isSlugChar c = true -> asciiLower c = c.
Proof.
  intro H. unfold asciiLower. destruct (isUpperAZ c) eqn:E; [exfalso | reflexivity].
  classes. to_props. lia.
Qed.

(** Lower-casing leaves a string of slug characters alone, whatever
    stands before it. *)
Lemma toLowerCaseFrom_slugish pre s :
  slugish s -> toLowerCaseFrom lowerOther pre s = s.
Proof.
  intro H. revert pre.
  induction H as [| c s Hc _ IH]; intro pre; simpl.
  - reflexivity.
  - rewrite (slugChar_ascii _ Hc), (slugChar_lower _ Hc), IH. reflexivity.
Qed.

Lemma removeNotIn_slugish s : slugish s -> removeNotIn slugSource s = s.
Proof.
  unfold removeNotIn.
  induction 1 as [| c s Hc _ IH]; simpl.
  - reflexivity.
  - rewrite (slugChar_source _ Hc), IH. reflexivity.
Qed.

Lemma removeNotIn_source s :
  Forall (fun c => slugSource c = true) (removeNotIn slugSource s).
Proof.
  unfold removeNotIn. apply Forall_forall. intros c Hc.
  apply filter_In in Hc. tauto.
Qed.

(** A run replacement only writes [rep] and code units outside the
    class. *)
Lemma replaceRunsFrom_Forall (P : codeunit -> Prop) cls rep b s :
  Forall P rep ->
  Forall (fun c => cls c = false -> P c) s ->
  Forall P (replaceRunsFrom cls rep b s).
Proof.
  intros Hrep H. revert b.
  induction H as [| c s Hc _ IH]; intro b; simpl.
  - constructor.
  - destruct (cls c) eqn:E.
    + apply Forall_app. split; [destruct b; [constructor | exact Hrep] | apply IH].
    + constructor; [auto | apply IH].
Qed.

(** Nothing of the class, nothing to replace. *)
Lemma replaceRunsFrom_none cls rep b s :
  Forall (fun c => cls c = false) s -> replaceRunsFrom cls rep b s = s.
Proof.
  intro H. revert b.
  induction H as [| c s Hc _ IH]; intro b; simpl.
  - reflexivity.
  - rewrite Hc, IH. reflexivity.
Qed.

(** Collapsing runs of a code unit into that code unit, twice, is
    collapsing them once. *)
Lemma replaceRunsFrom_twice cls h s :
  cls h = true ->
  (forall b, replaceRunsFrom cls [h] b (replaceRunsFrom cls [h] true s)
             = replaceRunsFrom cls [h] true s)
  /\ replaceRunsFrom cls [h] false (replaceRunsFrom cls [h] false s)
     = replaceRunsFrom cls [h] false s.
Proof.
  intro Hh.
  induction s as [| c s [IHt IHf]]; simpl.
  - split; reflexivity.
  - destruct (cls c) eqn:E; simpl.
    + split; [exact IHt |].
      rewrite Hh. simpl. rewrite IHt. reflexivity.
    + rewrite E. split; [intro b |]; rewrite IHf; reflexivity.
Qed.

Lemma dropWhile_none p s :
  Forall (fun c => p c = false) s -> dropWhile p s = s.
Proof.
  destruct 1 as [| c s Hc _]; simpl; [reflexivity | rewrite Hc; reflexivity].
Qed.

(** [trim] finds nothing to strip where there is no white space. *)
Lemma trim_no_space s :
  Forall (fun c => isWhiteSpace c = false) s -> trim s = s.
Proof.
  intro H. unfold trim, trimEnd, trimStart.
  rewrite (dropWhile_none _ _ H), dropWhile_none.
  - apply rev_involutive.
  - apply Forall_rev, H.
Qed.

Lemma hyphenated_slugish title : slugish (hyphenated lowerOther title).
Proof.
  unfold hyphenated, replaceRuns.
  apply replaceRunsFrom_Forall.
  - repeat constructor.
  - apply Forall_forall. intros c Hc _. revert c Hc. apply Forall_forall.
    apply replaceRunsFrom_Forall.
    + repeat constructor.
    + eapply Forall_impl; [| apply removeNotIn_source].
      intros c Hs Hw. apply source_not_space_slugChar; assumption.
Qed.

Lemma slugish_no_space s :
  slugish s -> Forall (fun c => isWhiteSpace c = false) s.
Proof. apply Forall_impl. exact slugChar_not_space. Qed.

(** The final [trim] of generateSlug never removes anything: by then
    every white space has become a hyphen. *)
Lemma generateSlug_trim_idle title :
  generateSlug lowerOther title = hyphenated lowerOther title.
Proof.
  unfold generateSlug. fold (hyphenated lowerOther title).
  apply trim_no_space, slugish_no_space, hyphenated_slugish.
Qed.

Lemma generateSlug_slugish title : slugish (generateSlug lowerOther title).
Proof. rewrite generateSlug_trim_idle. apply hyphenated_slugish. Qed.

(** Deriving a slug from a derived slug gives it back. *)
Lemma generateSlug_idempotent title :
  generateSlug lowerOther (generateSlug lowerOther title)
  = generateSlug lowerOther title.
Proof.
  rewrite !generateSlug_trim_idle.
  pose proof (hyphenated_slugish title) as Hs.
  unfold hyphenated at 1. unfold toLowerCase.
  rewrite (toLowerCaseFrom_slugish _ _ Hs), (removeNotIn_slugish _ Hs).
  unfold replaceRuns at 2.
  rewrite (replaceRunsFrom_none _ _ _ _ (slugish_no_space _ Hs)).
  unfold hyphenated, replaceRuns.
  apply (replaceRunsFrom_twice isHyphen HYPHEN _ eq_refl).
Qed.

(** The first example of the specification. *)
Lemma generateSlug_my_cool_page :
  generateSlug lowerOther (lit "My Cool Page!") = lit "my-cool-page".
Proof. reflexivity. Qed.

(** C1: the second example of the specification.  On the title
    "  multiple   spaces -- here " generateSlug returns
    "-multiple-spaces-here-", with a hyphen at either end, and not the
    "multiple-spaces-here" the specification gives: the white space at the
    ends has become hyphens before [trim] runs. *)
Theorem generateSlug_keeps_outer_hyphens :
  generateSlug lowerOther (lit "  multiple   spaces -- here ")
  = lit "-multiple-spaces-here-"
  /\ generateSlug lowerOther (lit "  multiple   spaces -- here ")
     <> lit "multiple-spaces-here".
Proof. split; [reflexivity | discriminate]. Qed.

(** C8: whatever the title, generateSlug returns a string made only of
    lower-case ASCII letters, digits and hyphens; in particular it holds
    no white space and no upper-case letter. *)
Theorem generateSlug_alphabet (title : jsstring) :
  Forall (fun c => (isLowerAZ c = true \/ isDigit c = true \/ c = HYPHEN)
                   /\ isWhiteSpace c = false /\ isUpperAZ c = false)
         (generateSlug lowerOther title).
Proof.
  eapply Forall_impl; [| apply generateSlug_slugish].
  intros c H. split; [| split].
  - unfold isSlugChar in H. rewrite !orb_true_iff in H.
    destruct H as [[H | H] | H]; auto.
    right. right. apply N.eqb_eq. exact H.
  - apply slugChar_not_space, H.
  - destruct (isUpperAZ c) eqn:E; [exfalso | reflexivity].
    classes. to_props. lia.
Qed.

End SlugFacts.

(* ===================================================================== *)
(** ** Row policies of feedback_pages                                     *)
(* ===================================================================== *)

Section PagePolicies.

Import Store.
Local Open Scope N_scope.

(** What the five policies amount to, command by command. *)
Lemma page_select_rule uid d r :
  page_permitted SELECT uid d r
  = is_true (sql_eq uid (Some (user_id r))) || is_active r.
Proof.
  unfold page_permitted, passes_using. simpl. unfold own_page.
  destruct (is_true (sql_eq uid (Some (user_id r)))), (is_active r);
    reflexivity.
Qed.

Lemma page_write_rule cmd uid d r :
  cmd <> SELECT ->
  page_permitted cmd uid d r = is_true (sql_eq uid (Some (user_id r))).
Proof.
  intro H. unfold page_permitted, passes_using, passes_check.
  destruct cmd; try congruence; simpl; unfold own_page;
    destruct (is_true (sql_eq uid (Some (user_id r)))); reflexivity.
Qed.

Lemma own_page_other a r :
  user_id r <> a -> is_true (sql_eq (Some a) (Some (user_id r))) = false.
Proof.
  intro H. simpl. destruct (a =? user_id r) eqn:E; [| reflexivity].
  apply N.eqb_eq in E. congruence.
Qed.

(** C2, as stated, fails: caller A is not the owner of the page of B, and
    the SELECT policies let A read it, because it is active. *)
Lemma other_owner_reads_active_page :
  (user_id page_of_B =? caller_A) = false
  /\ page_permitted SELECT (Some caller_A) db_of_B page_of_B = true
  /\ select_pages (Some caller_A) db_of_B (fun _ => true) = [page_of_B].
Proof. repeat split. Qed.

(** C2, amended: for a caller A and a page owned by somebody else, the
    policies refuse A the insert of that row, its update and its delete,
    and allow A to select it exactly when the page is active.  In the
    store: no UPDATE and no DELETE run by A changes or removes the row,
    and a SELECT by A returns it only if it is active. *)
Theorem other_owner_page_access (a : uuid) (d : db) (r : feedback_pages_row) :
  user_id r <> a ->
  page_permitted SELECT (Some a) d r = is_active r
  /\ page_permitted INSERT (Some a) d r = false
  /\ page_permitted UPDATE (Some a) d r = false
  /\ page_permitted DELETE (Some a) d r = false
  /\ (forall w, In r (select_pages (Some a) d w) -> is_active r = true)
  /\ (forall now w set,
         In r (feedback_pages d) ->
         In r (feedback_pages (snd (update_feedback_pages (Some a) now w set d))))
  /\ (forall w,
         In r (feedback_pages d) ->
         In r (feedback_pages (snd (delete_feedback_pages (Some a) w d)))).
Proof.
  intro H.
  pose proof (own_page_other a r H) as Hown.
  assert (Hsel : page_permitted SELECT (Some a) d r = is_active r)
    by (rewrite page_select_rule, Hown; reflexivity).
  assert (Hupd : page_permitted UPDATE (Some a) d r = false)
    by (rewrite page_write_rule, Hown; congruence).
  assert (Hdel : page_permitted DELETE (Some a) d r = false)
    by (rewrite page_write_rule, Hown; congruence).
  repeat split.
  - exact Hsel.
  - rewrite page_write_rule, Hown; congruence.
  - exact Hupd.
  - exact Hdel.
  - intros w Hin. unfold select_pages in Hin.
    apply filter_In in Hin. destruct Hin as [Hin _].
    apply filter_In in Hin. destruct Hin as [_ Hp]. congruence.
  - intros now w set Hin. unfold update_feedback_pages.
    repeat match goal with
           | |- context [if ?b then _ else _] => destruct b
           end; cbn [snd feedback_pages]; try exact Hin.
    apply in_map_iff. exists r. rewrite Hupd. simpl. auto.
  - intros w Hin. unfold delete_feedback_pages. cbn [snd feedback_pages].
    apply filter_In. rewrite Hdel. auto.
Qed.

Lemma other_owner_page_access_witness :
  page_permitted SELECT (Some caller_A) db_of_B page_of_B = is_active page_of_B
  /\ page_permitted INSERT (Some caller_A) db_of_B page_of_B = false
  /\ page_permitted UPDATE (Some caller_A) db_of_B page_of_B = false
  /\ page_permitted DELETE (Some caller_A) db_of_B page_of_B = false.
Proof.
  pose proof (other_owner_page_access caller_A db_of_B page_of_B) as H.
  destruct H as (H1 & H2 & H3 & H4 & _).
  - discriminate.
  - repeat split; assumption.
Defined.

End PagePolicies.

(* ===================================================================== *)
(** ** The keys of feedback_pages                                         *)
(* ===================================================================== *)

Section PageKeys.

Import Store.
Local Open Scope N_scope.

Lemma text_eqb_eq a b : text_eqb a b = true <-> a = b.
Proof.
  revert b. induction a as [| x a IH]; intros [| y b]; simpl;
    try (split; [discriminate | discriminate]); [tauto |].
  rewrite andb_true_iff, N.eqb_eq, IH.
  split; [intros [-> ->]; reflexivity | intro H; inversion H; auto].
Qed.

Lemma slug_taken_In s rows :
  slug_taken s rows = true <-> In s (map slug rows).
Proof.
  unfold slug_taken. rewrite existsb_exists, in_map_iff.
  split; intros [r [H1 H2]]; exists r.
  - apply text_eqb_eq in H2. auto.
  - split; [exact H2 | apply text_eqb_eq; exact H1].
Qed.

Lemma slug_free_not_In s rows :
  slug_taken s rows = false <-> ~ In s (map slug rows).
Proof.
  rewrite <- slug_taken_In. destruct (slug_taken s rows); split; congruence.
Qed.

Lemma slugs_unique_NoDup rows :
  slugs_unique rows = true <-> NoDup (map slug rows).
Proof.
  induction rows as [| r rows IH]; simpl.
  - split; [constructor | reflexivity].
  - rewrite andb_true_iff, negb_true_iff, slug_free_not_In, IH.
    split.
    + intros [H1 H2]. constructor; assumption.
    + intro H. inversion H; auto.
Qed.

Lemma NoDup_snoc {A} (l : list A) (x : A) :
  NoDup l -> ~ In x l -> NoDup (l ++ [x]).
Proof.
  intros Hl Hx.
  apply (Permutation_NoDup (l := x :: l)).
  - apply Permutation_cons_append.
  - constructor; assumption.
Qed.

(** Rows that vanish free their slugs and cannot make two rows collide. *)
Lemma fewer_rows_keep_slugs (keep : feedback_pages_row -> bool) rows :
  NoDup (map slug rows) -> NoDup (map slug (filter keep rows)).
Proof.
  intro Hnd. induction rows as [| r rows IH]; simpl; [constructor |].
  simpl in Hnd. apply NoDup_cons_iff in Hnd. destruct Hnd as [Hr Hrows].
  destruct (keep r); [| exact (IH Hrows)].
  simpl. apply NoDup_cons; [| exact (IH Hrows)].
  intro Hin. apply Hr.
  apply in_map_iff in Hin. destruct Hin as (y & Hy & Hin).
  apply filter_In in Hin. rewrite <- Hy. apply in_map. tauto.
Qed.

(** An insert either fails and leaves the store as it was, or appends
    exactly the new row. *)
Lemma insert_feedback_page_cases uid fresh now v d :
  (exists e, insert_feedback_page uid fresh now v d = (Err e, d))
  \/ (exists r,
        insert_feedback_page uid fresh now v d
        = (Ok r, {| feedback_pages := feedback_pages d ++ [r];
                    feedback := feedback d |})
        /\ ins_user_id v = Some (user_id r)
        /\ uid = Some (user_id r)
        /\ id r = fresh /\ title r = ins_title v
        /\ description r = Some (ins_description v)
        /\ slug r = ins_slug v /\ is_active r = true
        /\ created_at r = now
        /\ slug_taken (ins_slug v) (feedback_pages d) = false
        /\ id_taken fresh (feedback_pages d) = false).
Proof.
  unfold insert_feedback_page.
  destruct (ins_user_id v) as [owner |]; [| left; eexists; reflexivity].
  match goal with |- context [page_permitted INSERT uid d ?r] => set (row := r) end.
  destruct (page_permitted INSERT uid d row) eqn:Hp; simpl;
    [| left; eexists; reflexivity].
  destruct (id_taken fresh (feedback_pages d)) eqn:Hi;
    [left; eexists; reflexivity |].
  destruct (slug_taken (ins_slug v) (feedback_pages d)) eqn:Hs;
    [left; eexists; reflexivity |].
  right. exists row. repeat split; try reflexivity.
  rewrite page_write_rule in Hp by discriminate.
  destruct uid as [u |]; [| discriminate]. simpl in Hp.
  destruct (u =? owner) eqn:E; [| discriminate].
  apply N.eqb_eq in E. subst. reflexivity.
Qed.

(** A colliding slug makes the insert fail, whoever the caller and
    whoever the owner named in the new row, and no table changes. *)
Lemma insert_feedback_page_collision uid fresh now v d :
  slug_taken (ins_slug v) (feedback_pages d) = true ->
  exists e, insert_feedback_page uid fresh now v d = (Err e, d).
Proof.
  intro H.
  destruct (insert_feedback_page_cases uid fresh now v d)
    as [He | (r & _ & _ & _ & _ & _ & _ & _ & _ & _ & Hfree & _)].
  - exact He.
  - congruence.
Qed.

Lemma store_step_keeps_slugs d d' :
  store_step d d' ->
  NoDup (map slug (feedback_pages d)) ->
  NoDup (map slug (feedback_pages d')).
Proof.
  intros Hstep Hd. destruct Hstep.
  - destruct (insert_feedback_page_cases uid fresh now v d)
      as [[e He] | (r & Hr & _ & _ & _ & _ & _ & Hslug & _ & _ & Hfree & _)].
    + rewrite He. exact Hd.
    + rewrite Hr. cbn [snd feedback_pages]. rewrite map_app. simpl.
      apply NoDup_snoc; [exact Hd |].
      rewrite Hslug. apply slug_free_not_In, Hfree.
  - unfold update_feedback_pages. cbv zeta.
    match goal with
    | |- context [negb (ids_unique ?rows && slugs_unique ?rows)] =>
        destruct (slugs_unique rows) eqn:Hu
    end.
    + repeat match goal with
             | |- context [if ?b then _ else _] => destruct b
             end; cbn [snd feedback_pages]; try exact Hd.
      apply slugs_unique_NoDup, Hu.
    + rewrite andb_false_r. simpl.
      repeat match goal with
             | |- context [if ?b then _ else _] => destruct b
             end; exact Hd.
  - unfold delete_feedback_pages. cbn [snd feedback_pages].
    apply fewer_rows_keep_slugs, Hd.
  - unfold insert_feedback.
    repeat match goal with
           | |- context [if ?b then _ else _] => destruct b
           end; exact Hd.
Qed.

Lemma reachable_slugs_unique d :
  reachable d -> NoDup (map slug (feedback_pages d)).
Proof.
  induction 1 as [| d d' _ IH Hstep].
  - constructor.
  - eapply store_step_keeps_slugs; eassumption.
Qed.

End PageKeys.

(* ===================================================================== *)
(** ** Feedback-review view: order and ordinal labels                     *)
(* ===================================================================== *)

Section ReviewOrder.

Import Store App.
Local Open Scope N_scope.

Lemma insert_desc_perm (x : feedback_row) l :
  Permutation (x :: l) (insert_desc fb_created_at x l).
Proof.
  induction l as [| y l IH]; simpl.
  - apply Permutation_refl.
  - destruct (fb_created_at y <=? fb_created_at x).
    + apply Permutation_refl.
    + eapply perm_trans; [apply perm_swap | apply perm_skip, IH].
Qed.

Lemma order_desc_perm (l : list feedback_row) :
  Permutation l (order_desc fb_created_at l).
Proof.
  induction l as [| x l IH]; simpl.
  - apply perm_nil.
  - eapply perm_trans; [apply perm_skip, IH | apply insert_desc_perm].
Qed.

Lemma insert_desc_sorted x l :
  StronglySorted newer_first l ->
  StronglySorted newer_first (insert_desc fb_created_at x l).
Proof.
  induction 1 as [| y l Hl IH Hy]; simpl.
  - repeat constructor.
  - destruct (fb_created_at y <=? fb_created_at x) eqn:E.
    + apply N.leb_le in E. constructor.
      * constructor; assumption.
      * constructor; [exact E |].
        eapply Forall_impl; [| exact Hy].
        unfold newer_first. intros z Hz. lia.
    + apply N.leb_gt in E. constructor; [exact IH |].
      eapply Permutation_Forall; [apply insert_desc_perm |].
      constructor; [unfold newer_first; lia | exact Hy].
Qed.

Lemma order_desc_sorted (l : list feedback_row) :
  StronglySorted newer_first (order_desc fb_created_at l).
Proof.
  induction l as [| x l IH]; simpl.
  - constructor.
  - apply insert_desc_sorted, IH.
Qed.

Lemma label_from_nth total i l k :
  nth_error (label_from total i l) k
  = option_map (fun item => ((total - (i + Z.of_nat k))%Z, item))
               (nth_error l k).
Proof.
  revert i k. induction l as [| x l IH]; intros i [| k]; simpl; try reflexivity.
  - rewrite Z.add_0_r. reflexivity.
  - rewrite IH. destruct (nth_error l k); simpl; [| reflexivity].
    do 2 f_equal. lia.
Qed.

(** The list the review view holds once it has run from its initial
    state: the feedback [order_desc] returned, or still nothing. *)
Lemma review_feedback_cases pageId w :
  (rev_page (fst (fetchPageAndFeedback pageId review_initial w)) = None
   /\ rev_feedback (fst (fetchPageAndFeedback pageId review_initial w)) = [])
  \/ rev_feedback (fst (fetchPageAndFeedback pageId review_initial w))
     = order_desc fb_created_at
         (select_feedback (session w) (store w) (of_page pageId)).
Proof.
  unfold fetchPageAndFeedback, bind, current_user, query. cbn [session store].
  match goal with
  | |- context [single ?rows] => destruct (single rows)
  end; cbn; auto.
Qed.

(** C3: the feedback the review view shows is ordered by creation time,
    newest first; once a page is loaded it is the feedback the store
    returned for that page, nothing lost and nothing added; and the item at
    zero-based [index] carries the label
    [total - index]: of N items the first, the most recent one, is
    labelled N and the last, the earliest one, is labelled 1. *)
Theorem review_order_and_labels (pageId : uuid) (w : world) :
  let shown := rev_feedback (fst (fetchPageAndFeedback pageId review_initial w)) in
  let total := Z.of_nat (List.length shown) in
  StronglySorted newer_first shown
  /\ (forall p,
         rev_page (fst (fetchPageAndFeedback pageId review_initial w)) = Some p ->
         Permutation
           (select_feedback (session w) (store w) (of_page pageId)) shown)
  /\ (forall index item,
         nth_error shown index = Some item ->
         nth_error (labelled shown) index
         = Some ((total - Z.of_nat index)%Z, item))
  /\ (forall first rest,
         shown = first :: rest ->
         hd_error (labelled shown) = Some (total, first)
         /\ Forall (fun f => fb_created_at f <= fb_created_at first) shown)
  /\ (forall front last,
         shown = front ++ [last] ->
         nth_error (labelled shown) (List.length front) = Some (1%Z, last)
         /\ Forall (fun f => fb_created_at last <= fb_created_at f) shown).
Proof.
  cbv zeta.
  set (shown := rev_feedback (fst (fetchPageAndFeedback pageId review_initial w))).
  assert (Hs : StronglySorted newer_first shown).
  { destruct (review_feedback_cases pageId w) as [[_ H] | H]; fold shown in H;
      rewrite H; [constructor | apply order_desc_sorted]. }
  split; [exact Hs |]. split; [| split; [| split]].
  - intros p Hp.
    destruct (review_feedback_cases pageId w) as [[H _] | H].
    + congruence.
    + fold shown in H. rewrite H. apply order_desc_perm.
  - intros index item H. unfold labelled. rewrite label_from_nth, H. reflexivity.
  - intros first rest H. rewrite H in *. split.
    + unfold labelled. cbn [label_from hd_error]. rewrite Z.sub_0_r. reflexivity.
    + inversion Hs as [| ? ? _ Hall]; subst.
      constructor; [lia | exact Hall].
  - intros front last H. rewrite H in *. split.
    + unfold labelled. rewrite label_from_nth, nth_error_app2 by lia.
      rewrite Nat.sub_diag. simpl. rewrite length_app. simpl.
      do 2 f_equal. lia.
    + apply Forall_app. split; [| repeat constructor; lia].
      clear H. induction front as [| x front IH]; [constructor |].
      simpl in Hs. inversion Hs as [| ? ? Hs' Hall]; subst.
      constructor; [| apply IH, Hs'].
      apply Forall_app in Hall. destruct Hall as [_ Hl].
      inversion Hl; subst. assumption.
Qed.

(** Three items created at 100, 300 and 200: the view shows the one of
    300 first with label 3, then the one of 200 with label 2, and the one of
    100 last with label 1. *)
Lemma review_order_and_labels_witness :
  labelled (rev_feedback (fst (fetchPageAndFeedback 10 review_initial busy_world)))
  = [(3%Z, note 22 "third" 300); (2%Z, note 23 "second" 200);
     (1%Z, note 21 "first" 100)]
  /\ hd_error (labelled (rev_feedback
                           (fst (fetchPageAndFeedback 10 review_initial
                                                      busy_world))))
     = Some (3%Z, note 22 "third" 300)
  /\ nth_error (labelled (rev_feedback
                            (fst (fetchPageAndFeedback 10 review_initial
                                                       busy_world)))) 2
     = Some (1%Z, note 21 "first" 100).
Proof.
  destruct (review_order_and_labels 10 busy_world) as (_ & _ & _ & Hf & Hl).
  split; [reflexivity |]. split.
  - apply (Hf (note 22 "third" 300)
              [note 23 "second" 200; note 21 "first" 100]).
    reflexivity.
  - apply (Hl [note 22 "third" 300; note 23 "second" 200]
              (note 21 "first" 100)).
    reflexivity.
Defined.

End ReviewOrder.

(* ===================================================================== *)
(** ** Page-management view: createPage                                   *)
(* ===================================================================== *)

Section CreatePage.

Import Store App.
Local Open Scope N_scope.

(** A string of white space only, the empty one included, trims to
    nothing. *)
Lemma trim_blank s :
  Forall (fun c => JS.isWhiteSpace c = true) s -> JS.trim s = [].
Proof.
  intro H. unfold JS.trim, JS.trimEnd, JS.trimStart.
  assert (E : JS.dropWhile JS.isWhiteSpace s = []).
  { induction H as [| c s Hc _ IH]; simpl; [| rewrite Hc]; auto. }
  rewrite E. reflexivity.
Qed.

(** With a title that trims to nothing createPage only notifies. *)
Lemma createPage_rejects_blank_title e st w :
  is_empty (JS.trim (fd_title (form st))) = true ->
  createPage e st w
  = (st, and_then w [Toast "Error" "Title is required" true]).
Proof.
  intro H. unfold createPage. rewrite H. reflexivity.
Qed.

(** With any other title createPage sends one insert, built from the form
    as it stands, and goes on according to the answer. *)
Lemma createPage_sends_insert e st w :
  is_empty (JS.trim (fd_title (form st))) = false ->
  let v := page_payload st (session w) in
  (exists err,
      insert_feedback_page (session w) (fresh_id e) (now e) v (store w)
      = (Err err, store w)
      /\ createPage e st w
         = (st, and_then w [StoreRequest (InsertPage v);
                            Toast "Error" "Failed to create feedback page" true]))
  \/ (exists r,
        insert_feedback_page (session w) (fresh_id e) (now e) v (store w)
        = (Ok r, {| feedback_pages := feedback_pages (store w) ++ [r];
                    feedback := feedback (store w) |})
        /\ title r = fd_title (form st)
        /\ slug r = fd_slug (form st)
        /\ session w = Some (user_id r)
        /\ slug_taken (fd_slug (form st)) (feedback_pages (store w)) = false
        /\ store (snd (createPage e st w))
           = {| feedback_pages := feedback_pages (store w) ++ [r];
                feedback := feedback (store w) |}
        /\ trace (snd (createPage e st w))
           = trace w ++ [StoreRequest (InsertPage v);
                         Toast "Success" "Feedback page created successfully" false;
                         StoreRequest SelectPages]
        /\ form (fst (createPage e st w)) = empty_form
        /\ showCreateForm (fst (createPage e st w)) = false).
Proof.
  intros H v.
  unfold createPage. rewrite H.
  unfold bind, current_user, mutate. fold v.
  destruct (insert_feedback_page_cases (session w) (fresh_id e) (now e) v (store w))
    as [[err He] | (r & Hr & _ & Hu & _ & Ht & _ & Hs & _ & _ & Hfree & _)].
  - left. exists err. split; [exact He |].
    rewrite He. unfold toast, emit, ret, and_then. simpl.
    rewrite <- app_assoc. reflexivity.
  - right. exists r. rewrite Hr.
    unfold toast, emit, fetchPages, query, ret, bind. simpl.
    rewrite <- !app_assoc. simpl.
    repeat split; auto.
Qed.

(** With a message that trims to nothing submitFeedback only notifies. *)
Lemma submitFeedback_rejects_blank_message e st w :
  is_empty (JS.trim (pub_message st)) = true ->
  submitFeedback e st w
  = (st, and_then w [Toast "Error" "Please enter your feedback" true]).
Proof.
  intro H. unfold submitFeedback. rewrite H. reflexivity.
Qed.

Lemma requests_and_then_toast w t d b :
  requests (trace (and_then w [Toast t d b])) = requests (trace w).
Proof.
  unfold requests, and_then. simpl. rewrite filter_app. simpl.
  apply app_nil_r.
Qed.

(** C7: a title, or a message, that is empty or white space only is turned
    down before any request: the handler returns the state it was given,
    form included, the store is untouched, and the only thing that happens
    is the notification; no request is sent. *)
Theorem validation_before_any_request (e : entropy) :
  (forall st w,
      Forall (fun c => JS.isWhiteSpace c = true) (fd_title (form st)) ->
      fst (createPage e st w) = st
      /\ store (snd (createPage e st w)) = store w
      /\ trace (snd (createPage e st w))
         = trace w ++ [Toast "Error" "Title is required" true]
      /\ requests (trace (snd (createPage e st w))) = requests (trace w))
  /\ (forall st w,
         Forall (fun c => JS.isWhiteSpace c = true) (pub_message st) ->
         fst (submitFeedback e st w) = st
         /\ store (snd (submitFeedback e st w)) = store w
         /\ trace (snd (submitFeedback e st w))
            = trace w ++ [Toast "Error" "Please enter your feedback" true]
         /\ requests (trace (snd (submitFeedback e st w))) = requests (trace w)).
Proof.
  split; intros st w H; apply trim_blank in H.
  - rewrite createPage_rejects_blank_title by (rewrite H; reflexivity).
    repeat split. apply requests_and_then_toast.
  - rewrite submitFeedback_rejects_blank_message by (rewrite H; reflexivity).
    repeat split. apply requests_and_then_toast.
Qed.

(** A title and a message of three spaces: both handlers stop at the
    notification. *)
Lemma validation_before_any_request_witness :
  (fst (createPage draw (form_with_title "   ") owner_world)
   = form_with_title "   "
   /\ requests (trace (snd (createPage draw (form_with_title "   ")
                                       owner_world))) = [])
  /\ trace (snd (submitFeedback draw
                   (message_typed "   " public_initial) owner_world))
     = [Toast "Error" "Please enter your feedback" true].
Proof.
  destruct (validation_before_any_request draw) as [Hc Hs].
  split.
  - destruct (Hc (form_with_title "   ") owner_world) as (H1 & _ & _ & H4).
    + repeat constructor.
    + split; assumption.
  - apply Hs. repeat constructor.
Defined.

(** C9: when the trimmed title is not empty, createPage sends the title as
    the form holds it, and every row the call adds to feedback_pages holds
    that same untrimmed title. *)
Theorem createPage_stores_raw_title (e : entropy) (st : pagesState) (w : world) :
  is_empty (JS.trim (fd_title (form st))) = false ->
  (exists rest,
      trace (snd (createPage e st w))
      = trace w ++ StoreRequest (InsertPage (page_payload st (session w))) :: rest
      /\ ins_title (page_payload st (session w)) = fd_title (form st))
  /\ (forall r,
         In r (feedback_pages (store (snd (createPage e st w)))) ->
         ~ In r (feedback_pages (store w)) ->
         title r = fd_title (form st)).
Proof.
  intro H.
  destruct (createPage_sends_insert e st w H)
    as [(err & _ & Hc) | (r & _ & Ht & _ & _ & _ & Hd & Htr & _)].
  - rewrite Hc. simpl. split.
    + eexists. split; reflexivity.
    + intros r Hin Hout. contradiction.
  - rewrite Hd, Htr. split.
    + eexists. split; reflexivity.
    + intros r' Hin Hout. simpl in Hin. apply in_app_or in Hin.
      destruct Hin as [Hin | [<- | []]]; [contradiction | exact Ht].
Qed.

(** The title " Hi " passes the validation, and the row that is created
    holds " Hi ", not "Hi". *)
Lemma createPage_stores_raw_title_witness :
  JS.trim (JS.lit " Hi ") = JS.lit "Hi"
  /\ map title (feedback_pages
                  (store (snd (createPage draw (form_with_title " Hi ")
                                          owner_world))))
     = [JS.lit " Hi "]
  /\ (forall r,
         In r (feedback_pages
                 (store (snd (createPage draw (form_with_title " Hi ")
                                         owner_world)))) ->
         ~ In r (feedback_pages (store owner_world)) ->
         title r = JS.lit " Hi ").
Proof.
  split; [reflexivity |]. split; [reflexivity |].
  apply (createPage_stores_raw_title draw (form_with_title " Hi ") owner_world).
  reflexivity.
Defined.

(** C10: the title "!!!" is not empty, its derived slug is; createPage
    lets it through the validation and sends the insert with the empty slug,
    which the store accepts. *)
Theorem empty_slug_reaches_store
        (lowerOther : JS.jsstring -> JS.codeunit -> JS.jsstring -> JS.jsstring) :
  let st := handleTitleChange lowerOther (JS.lit "!!!") pages_initial in
  JS.generateSlug lowerOther (JS.lit "!!!") = []
  /\ fd_title (form st) = JS.lit "!!!"
  /\ fd_slug (form st) = []
  /\ is_empty (JS.trim (fd_title (form st))) = false
  /\ (forall e w, exists rest,
         trace (snd (createPage e st w))
         = trace w
             ++ StoreRequest
                  (InsertPage {| ins_title := JS.lit "!!!";
                                 ins_description := [];
                                 ins_slug := [];
                                 ins_user_id := session w |}) :: rest)
  /\ map slug (feedback_pages (store (snd (createPage draw st owner_world))))
     = [[]].
Proof.
  cbv zeta. repeat split.
  intros e w.
  set (st := handleTitleChange lowerOther (JS.lit "!!!") pages_initial).
  destruct (createPage_sends_insert e st w eq_refl)
    as [(err & _ & Hc) | (r & _ & _ & _ & _ & _ & _ & Htr & _)].
  - rewrite Hc. eexists. reflexivity.
  - rewrite Htr. eexists. reflexivity.
Qed.

(** C6: slugs are unique across the whole table in every state the store
    can reach, whoever owns the rows; an insert whose slug is taken fails
    for every caller and every owner and leaves both tables as they were;
    and createPage then shows the error notification, with the form kept. *)
Theorem slug_unique_store_wide :
  (forall d, reachable d -> NoDup (map slug (feedback_pages d)))
  /\ (forall uid fresh now v d,
         slug_taken (ins_slug v) (feedback_pages d) = true ->
         exists err, insert_feedback_page uid fresh now v d = (Err err, d))
  /\ (forall e st w,
         is_empty (JS.trim (fd_title (form st))) = false ->
         slug_taken (fd_slug (form st)) (feedback_pages (store w)) = true ->
         createPage e st w
         = (st, and_then w
                  [StoreRequest (InsertPage (page_payload st (session w)));
                   Toast "Error" "Failed to create feedback page" true])).
Proof.
  split; [exact reachable_slugs_unique |].
  split; [exact insert_feedback_page_collision |].
  intros e st w Ht Hs.
  destruct (createPage_sends_insert e st w Ht)
    as [(err & _ & Hc) | (r & _ & _ & _ & _ & Hfree & _)].
  - exact Hc.
  - congruence.
Qed.

(** Owner 1 holds the slug "team-retro"; user 2 asks for a page of the same
    title: the store is reachable, it keeps its single row, and user 2 gets
    the error notification. *)
Lemma slug_unique_store_wide_witness :
  reachable (store rival_world)
  /\ map slug (feedback_pages (store rival_world)) = [JS.lit "team-retro"]
  /\ createPage {| fresh_id := 11; now := 2000 |}
                (form_with_title "Team retro") rival_world
     = (form_with_title "Team retro",
        and_then rival_world
          [StoreRequest
             (InsertPage (page_payload (form_with_title "Team retro") (Some 2)));
           Toast "Error" "Failed to create feedback page" true]).
Proof.
  split; [| split].
  - apply (@reach_step empty_db); [constructor |].
    exact (@step_insert_page (Some 1) 10 1000
             (page_payload (form_with_title "Team retro") (Some 1)) empty_db).
  - reflexivity.
  - destruct slug_unique_store_wide as (_ & _ & H).
    apply (H {| fresh_id := 11; now := 2000 |} (form_with_title "Team retro")
             rival_world); reflexivity.
Defined.

End CreatePage.

(* ===================================================================== *)
(** ** Reading one page: the public view and the review view              *)
(* ===================================================================== *)

Section OnePage.

Import Store App.
Local Open Scope N_scope.

Lemma single_Ok {A} (rows : list A) (p : A) : single rows = Ok p -> rows = [p].
Proof.
  destruct rows as [| x [| y rows]]; simpl; intro H; try discriminate.
  inversion H. reflexivity.
Qed.

Lemma filter_none {A} (f : A -> bool) (l : list A) :
  (forall x, In x l -> f x = false) -> filter f l = [].
Proof.
  induction l as [| x l IH]; simpl; intro H; [reflexivity |].
  rewrite (H x) by auto. apply IH. intros y Hy. apply H. auto.
Qed.

Lemma select_pages_In uid d w p :
  In p (select_pages uid d w)
  <-> In p (feedback_pages d)
      /\ page_permitted SELECT uid d p = true /\ w p = true.
Proof.
  unfold select_pages. rewrite !filter_In. tauto.
Qed.

Lemma filter_filter_weaker {A} (f g : A -> bool) (l : list A) :
  (forall x, f x = true -> g x = true) ->
  filter f (filter g l) = filter f l.
Proof.
  intro H. induction l as [| x l IH]; simpl; [reflexivity |].
  destruct (g x) eqn:G; simpl.
  - rewrite IH. reflexivity.
  - destruct (f x) eqn:F; [| exact IH].
    rewrite (H x F) in G. discriminate.
Qed.

(** The subquery of the feedback policies returns the active pages, for
    every caller: an active page is visible to all. *)
Lemma active_page_ids_any uid d :
  active_page_ids uid d = map id (filter is_active (feedback_pages d)).
Proof.
  unfold active_page_ids, select_pages. f_equal.
  rewrite filter_filter_weaker.
  - apply filter_ext. intro r. destruct (is_active r); reflexivity.
  - intros r Hr. rewrite page_select_rule.
    destruct (is_active r); [apply orb_true_r | discriminate].
Qed.

Lemma existsb_active_ids x rows :
  existsb (N.eqb x) (map id (filter is_active rows))
  = existsb (fun r => (id r =? x) && is_active r) rows.
Proof.
  induction rows as [| r rows IH]; simpl; [reflexivity |].
  destruct (is_active r); simpl.
  - rewrite IH, andb_true_r, (N.eqb_sym x). reflexivity.
  - rewrite IH, andb_false_r. reflexivity.
Qed.

(** Both feedback policies say, for every caller: the row's page is an
    active page. *)
Lemma feedback_rule cmd uid d f :
  cmd = SELECT \/ cmd = INSERT ->
  feedback_permitted cmd uid d f = page_is_active d (feedback_page_id f).
Proof.
  intros [-> | ->]; unfold feedback_permitted, passes_using, passes_check;
    simpl; unfold on_active_page; rewrite active_page_ids_any, orb_false_r;
    unfold page_is_active, sql_in;
    (destruct (feedback_page_id f) as [x |];
     [simpl; rewrite existsb_active_ids;
      destruct (existsb _ (feedback_pages d)); reflexivity
     | destruct (map id (filter is_active (feedback_pages d))); reflexivity]).
Qed.

Lemma insert_feedback_denied uid fresh now v d :
  page_is_active d (ins_feedback_page_id v) = false ->
  insert_feedback uid fresh now v d = (Err RlsViolation, d).
Proof.
  intro H. unfold insert_feedback.
  rewrite feedback_rule by auto. simpl. rewrite H. reflexivity.
Qed.

Lemma fetchPage_cases (s : text) st w :
  s <> [] ->
  match single (select_pages (session w) (store w) (by_slug s)) with
  | Ok p =>
      fetchPage (Some s) st w
      = (set_pub_loaded (Some p) st,
         and_then w [StoreRequest (SelectPageBySlug s)])
  | Err _ =>
      fetchPage (Some s) st w
      = (set_pub_loaded (pub_page st) st,
         and_then w [StoreRequest (SelectPageBySlug s);
                     ConsoleError "Error fetching page:"])
  end.
Proof.
  intro Hs. destruct s as [| c s]; [congruence |].
  unfold fetchPage, bind, query.
  destruct (single _); unfold emit, ret, and_then; simpl;
    rewrite <- ?app_assoc; reflexivity.
Qed.

Lemma no_active_page_no_row (s : text) uid d :
  (forall p, In p (feedback_pages d) -> slug p = s -> is_active p = false) ->
  select_pages uid d (by_slug s) = [].
Proof.
  intro H. unfold select_pages. apply filter_none. intros p Hp.
  apply filter_In in Hp. destruct Hp as [Hp _].
  unfold by_slug. destruct (text_eqb (slug p) s) eqn:E; [| reflexivity].
  apply text_eqb_eq in E. rewrite (H p Hp E). reflexivity.
Qed.

(** In a table with unique slugs the active row of a slug is the one row
    the query of the public view returns. *)
Lemma unique_slug_one_row uid d p :
  NoDup (map slug (feedback_pages d)) ->
  In p (feedback_pages d) -> is_active p = true ->
  select_pages uid d (by_slug (slug p)) = [p].
Proof.
  intros Hnd Hin Hact. unfold select_pages.
  rewrite filter_filter_weaker.
  2:{ intros r Hr. rewrite page_select_rule. unfold by_slug in Hr.
      apply andb_true_iff in Hr. destruct Hr as [_ Hr].
      destruct (is_active r); [apply orb_true_r | discriminate]. }
  assert (Hp : by_slug (slug p) p = true).
  { unfold by_slug. rewrite Hact. rewrite (proj2 (text_eqb_eq _ _) eq_refl).
    reflexivity. }
  induction (feedback_pages d) as [| x rows IH]; [contradiction |].
  simpl in Hnd. inversion Hnd as [| ? ? Hx Hrows]; subst.
  assert (Hrest : In p rows -> by_slug (slug p) x = false).
  { intro Hp'. unfold by_slug.
    destruct (text_eqb (slug x) (slug p)) eqn:E; [| reflexivity].
    apply text_eqb_eq in E. exfalso. apply Hx. rewrite E.
    apply in_map, Hp'. }
  destruct Hin as [-> | Hin].
  - simpl. rewrite Hp. f_equal. apply filter_none.
    intros y Hy. unfold by_slug.
    destruct (text_eqb (slug y) (slug p)) eqn:E; [| reflexivity].
    apply text_eqb_eq in E. exfalso. apply Hx. rewrite <- E.
    apply in_map, Hy.
  - simpl. rewrite (Hrest Hin). apply IH; assumption.
Qed.

Lemma submitFeedback_denied e st w :
  is_empty (JS.trim (pub_message st)) = false ->
  page_is_active (store w) (option_map id (pub_page st)) = false ->
  store (snd (submitFeedback e st w)) = store w
  /\ submitted (fst (submitFeedback e st w)) = submitted st
  /\ trace (snd (submitFeedback e st w))
     = trace w ++ [StoreRequest (InsertFeedback (feedback_payload st));
                   ConsoleError "Error submitting feedback:";
                   Toast "Error" "Failed to submit feedback. Please try again."
                         true].
Proof.
  intros Hm Hp. unfold submitFeedback. rewrite Hm.
  unfold bind, mutate.
  rewrite insert_feedback_denied by exact Hp.
  unfold emit, toast, emit, ret. simpl. rewrite <- !app_assoc.
  repeat split.
Qed.

(** C4: the public view shows a page only if the store returned the one
    active row of the route's slug; with no such row, be the slug unknown or
    its page switched off, the view ends exactly as over an empty store, on
    the not-found screen.  The feedback policies let a caller, anonymous or
    not, select and insert feedback only on an active page: an insert aimed
    at an inactive or absent page is refused, both tables stay as they were,
    and submitFeedback reports the failure. *)
Theorem public_page_gate :
  (forall s w p,
      pub_page (fst (fetchPage (Some s) public_initial w)) = Some p ->
      select_pages (session w) (store w) (by_slug s) = [p]
      /\ In p (feedback_pages (store w)) /\ slug p = s /\ is_active p = true)
  /\ (forall w p,
         NoDup (map slug (feedback_pages (store w))) ->
         In p (feedback_pages (store w)) -> is_active p = true ->
         slug p <> [] ->
         pub_page (fst (fetchPage (Some (slug p)) public_initial w)) = Some p)
  /\ (forall s w,
         (forall p, In p (feedback_pages (store w)) ->
                    slug p = s -> is_active p = false) ->
         fst (fetchPage (Some s) public_initial w)
         = fst (fetchPage (Some s) public_initial (with_store empty_db w))
         /\ trace (snd (fetchPage (Some s) public_initial w))
            = trace (snd (fetchPage (Some s) public_initial
                                    (with_store empty_db w)))
         /\ public_render (fst (fetchPage (Some s) public_initial w))
            = PubNotFound)
  /\ (forall uid d f,
         feedback_permitted SELECT uid d f
         = page_is_active d (feedback_page_id f)
         /\ feedback_permitted INSERT uid d f
            = page_is_active d (feedback_page_id f))
  /\ (forall uid d w f,
         In f (select_feedback uid d w) ->
         page_is_active d (feedback_page_id f) = true)
  /\ (forall uid fresh now v d,
         page_is_active d (ins_feedback_page_id v) = false ->
         insert_feedback uid fresh now v d = (Err RlsViolation, d))
  /\ (forall e st w,
         is_empty (JS.trim (pub_message st)) = false ->
         page_is_active (store w) (option_map id (pub_page st)) = false ->
         store (snd (submitFeedback e st w)) = store w
         /\ submitted (fst (submitFeedback e st w)) = submitted st
         /\ trace (snd (submitFeedback e st w))
            = trace w ++ [StoreRequest (InsertFeedback (feedback_payload st));
                          ConsoleError "Error submitting feedback:";
                          Toast "Error"
                                "Failed to submit feedback. Please try again."
                                true]).
Proof.
  split; [| split; [| split; [| split; [| split; [| split]]]]].
  - intros s w p H.
    assert (Hs : s <> []) by (intros ->; discriminate).
    pose proof (fetchPage_cases s public_initial w Hs) as Hc.
    destruct (single (select_pages (session w) (store w) (by_slug s)))
      as [q | err] eqn:E; rewrite Hc in H; simpl in H; [| discriminate].
    inversion H; subst q. apply single_Ok in E.
    assert (Hin : In p (select_pages (session w) (store w) (by_slug s)))
      by (rewrite E; left; reflexivity).
    apply select_pages_In in Hin. destruct Hin as (Hin & _ & Hby).
    unfold by_slug in Hby. apply andb_true_iff in Hby.
    destruct Hby as [Hsl Ha]. apply text_eqb_eq in Hsl.
    destruct (is_active p); [auto | discriminate].
  - intros w p Hnd Hin Hact Hs.
    pose proof (fetchPage_cases (slug p) public_initial w Hs) as Hc.
    rewrite (unique_slug_one_row (session w) (store w) p Hnd Hin Hact) in Hc.
    unfold single in Hc. rewrite Hc. reflexivity.
  - intros s w H.
    assert (Hs : s = [] \/ s <> []) by (destruct s; [left | right]; congruence).
    destruct Hs as [-> | Hs]; [repeat split |].
    pose proof (fetchPage_cases s public_initial w Hs) as H1.
    pose proof (fetchPage_cases s public_initial (with_store empty_db w) Hs)
      as H2.
    rewrite (no_active_page_no_row _ _ _ H) in H1.
    rewrite (no_active_page_no_row s _ (store (with_store empty_db w))) in H2
      by (intros p []).
    unfold single in H1, H2. rewrite H1, H2.
    repeat split.
  - intros uid d f. split; apply feedback_rule; auto.
  - intros uid d w f H. unfold select_feedback in H.
    apply filter_In in H. destruct H as [H _].
    apply filter_In in H. destruct H as [_ H].
    rewrite feedback_rule in H by auto. exact H.
  - exact insert_feedback_denied.
  - exact submitFeedback_denied.
Qed.

(** The page "team-retro": an anonymous visitor gets the form while it is
    active; once it is switched off the visitor gets the not-found screen,
    as for the slug "no-such-page", and a feedback insert naming the page is
    refused without a row being written. *)
Lemma public_page_gate_witness :
  public_render (fst (fetchPage (Some (JS.lit "team-retro")) public_initial
                                visitor_world))
  = PubForm (JS.lit "Team retro") (Some []) [] false
  /\ (fst (fetchPage (Some (JS.lit "team-retro")) public_initial closed_world)
      = fst (fetchPage (Some (JS.lit "team-retro")) public_initial
                       (with_store empty_db closed_world))
      /\ trace (snd (fetchPage (Some (JS.lit "team-retro")) public_initial
                               closed_world))
         = trace (snd (fetchPage (Some (JS.lit "team-retro")) public_initial
                                 (with_store empty_db closed_world)))
      /\ public_render (fst (fetchPage (Some (JS.lit "team-retro"))
                                       public_initial closed_world))
         = PubNotFound)
  /\ insert_feedback None 20 4000
       {| ins_message := JS.lit "Great product!";
          ins_feedback_page_id := Some 10 |} (store closed_world)
     = (Err RlsViolation, store closed_world).
Proof.
  destruct public_page_gate as (_ & _ & Hnf & _ & _ & Hins & _).
  split; [reflexivity |]. split.
  - apply (Hnf (JS.lit "team-retro") closed_world).
    intros p [<- | []] _. reflexivity.
  - apply Hins. reflexivity.
Defined.

(** What fetchPageAndFeedback does, by the answer to its first query. *)
Lemma fetchPageAndFeedback_cases pageId st w :
  match single (select_pages (session w) (store w)
                  (by_id_and_owner pageId (session w))) with
  | Ok p =>
      fetchPageAndFeedback pageId st w
      = ({| rev_page := Some p;
            rev_feedback :=
              order_desc fb_created_at
                (select_feedback (session w) (store w) (of_page pageId));
            rev_loading := false |},
         and_then w [StoreRequest (SelectPageByIdAndOwner pageId (session w));
                     StoreRequest (SelectFeedbackOfPage pageId)])
  | Err _ =>
      fetchPageAndFeedback pageId st w
      = ({| rev_page := rev_page st; rev_feedback := rev_feedback st;
            rev_loading := false |},
         and_then w [StoreRequest (SelectPageByIdAndOwner pageId (session w));
                     ConsoleError "Error fetching data:";
                     Toast "Error" "Failed to load feedback page" true;
                     Navigate "/pages"])
  end.
Proof.
  unfold fetchPageAndFeedback, bind, current_user, query. cbn [session store].
  destruct (single _); unfold emit, toast, emit, ret, and_then; simpl;
    rewrite <- ?app_assoc; reflexivity.
Qed.

Lemma not_owned_no_row pageId w :
  (forall p, In p (feedback_pages (store w)) ->
             id p = pageId -> session w <> Some (user_id p)) ->
  select_pages (session w) (store w) (by_id_and_owner pageId (session w)) = [].
Proof.
  intro H. unfold select_pages. apply filter_none. intros p Hp.
  apply filter_In in Hp. destruct Hp as [Hp _].
  unfold by_id_and_owner.
  destruct (id p =? pageId) eqn:E; [| reflexivity].
  apply N.eqb_eq in E. specialize (H p Hp E).
  destruct (session w) as [u |]; [| reflexivity]. simpl.
  destruct (user_id p =? u) eqn:Eu; [| reflexivity].
  apply N.eqb_eq in Eu. congruence.
Qed.

(** C5: the review view asks for the row with the page identifier and the
    caller as owner.  A page it comes to hold is a row of the store with
    that identifier, owned by the caller.  When the store has no such row,
    be the page somebody else's or absent, the view keeps the page it had
    (none, on mount, which renders as not found), logs, shows the error
    notification and goes to the page-management view; nothing is written. *)
Theorem review_only_own_page (pageId : uuid) (st : reviewState) (w : world) :
  store (snd (fetchPageAndFeedback pageId st w)) = store w
  /\ (forall p,
         rev_page (fst (fetchPageAndFeedback pageId st w)) = Some p ->
         rev_page st = Some p
         \/ (In p (feedback_pages (store w))
             /\ id p = pageId /\ session w = Some (user_id p)))
  /\ ((forall p, In p (feedback_pages (store w)) ->
                 id p = pageId -> session w <> Some (user_id p)) ->
      fst (fetchPageAndFeedback pageId st w)
      = {| rev_page := rev_page st; rev_feedback := rev_feedback st;
           rev_loading := false |}
      /\ trace (snd (fetchPageAndFeedback pageId st w))
         = trace w ++ [StoreRequest (SelectPageByIdAndOwner pageId (session w));
                       ConsoleError "Error fetching data:";
                       Toast "Error" "Failed to load feedback page" true;
                       Navigate "/pages"]
      /\ (rev_page st = None ->
          review_render false (fst (fetchPageAndFeedback pageId st w))
          = RevNotFound)).
Proof.
  pose proof (fetchPageAndFeedback_cases pageId st w) as Hc.
  destruct (single (select_pages (session w) (store w)
                      (by_id_and_owner pageId (session w))))
    as [q | err] eqn:E; rewrite Hc; clear Hc; simpl.
  - apply single_Ok in E. split; [reflexivity |]. split.
    + intros p Hp. inversion Hp; subst q. right.
      assert (Hin : In p (select_pages (session w) (store w)
                            (by_id_and_owner pageId (session w))))
        by (rewrite E; left; reflexivity).
      apply select_pages_In in Hin. destruct Hin as (Hin & _ & Hby).
      unfold by_id_and_owner in Hby. apply andb_true_iff in Hby.
      destruct Hby as [Hid Hown]. apply N.eqb_eq in Hid.
      destruct (session w) as [u |]; [| discriminate]. simpl in Hown.
      destruct (user_id p =? u) eqn:Eu; [| discriminate].
      apply N.eqb_eq in Eu. subst u. auto.
    + intro H. rewrite (not_owned_no_row pageId w H) in E. discriminate.
  - split; [reflexivity |]. split; [auto |].
    intros _. repeat split. intros ->. reflexivity.
Qed.

(** User 2 opens the review view on page 10, which user 1 owns, and on
    page 99, which nobody has: in both cases no page is held, the screen is
    the not-found one, and the notification and the redirect follow. *)
Lemma review_only_own_page_witness :
  (review_render false (fst (fetchPageAndFeedback 10 review_initial rival_world))
   = RevNotFound
   /\ trace (snd (fetchPageAndFeedback 10 review_initial rival_world))
      = [StoreRequest (SelectPageByIdAndOwner 10 (Some 2));
         ConsoleError "Error fetching data:";
         Toast "Error" "Failed to load feedback page" true;
         Navigate "/pages"])
  /\ (review_render false (fst (fetchPageAndFeedback 99 review_initial rival_world))
      = RevNotFound
      /\ trace (snd (fetchPageAndFeedback 99 review_initial rival_world))
         = [StoreRequest (SelectPageByIdAndOwner 99 (Some 2));
            ConsoleError "Error fetching data:";
            Toast "Error" "Failed to load feedback page" true;
            Navigate "/pages"]).
Proof.
  split.
  - destruct (review_only_own_page 10 review_initial rival_world)
      as (_ & _ & H).
    destruct H as (_ & Ht & Hr).
    + intros p [<- | []] _. discriminate.
    + split; [apply Hr; reflexivity | exact Ht].
  - destruct (review_only_own_page 99 review_initial rival_world)
      as (_ & _ & H).
    destruct H as (_ & Ht & Hr).
    + intros p [<- | []] Hid. discriminate.
    + split; [apply Hr; reflexivity | exact Ht].
Defined.

End OnePage.

(* ===================================================================== *)
(** ** More on slug derivation                                            *)
(* ===================================================================== *)

Section SlugShape.

Import JS Wall.
Local Open Scope N_scope.

Variable lowerOther : jsstring -> codeunit -> jsstring -> jsstring.

Lemma hyphen_pair_free_cons c s :
  hyphen_pair_free (c :: s)
  = negb (isHyphen c && starts_with_hyphen s) && hyphen_pair_free s.
Proof. destruct s; simpl; [rewrite andb_false_r |]; reflexivity. Qed.

(** Collapsing the runs of hyphens leaves no two hyphens side by side,
    and right after a hyphen the result does not start with one. *)
Lemma collapsed_hyphens_shape s :
  (starts_with_hyphen (replaceRunsFrom isHyphen [HYPHEN] true s) = false
   /\ hyphen_pair_free (replaceRunsFrom isHyphen [HYPHEN] true s) = true)
  /\ hyphen_pair_free (replaceRunsFrom isHyphen [HYPHEN] false s) = true.
Proof.
  induction s as [| c s [[IHs IHt] IHf]]; simpl; [auto |].
  destruct (isHyphen c) eqn:E.
  - split; [split; assumption |].
    change ([HYPHEN] ++ replaceRunsFrom isHyphen [HYPHEN] true s)
      with (HYPHEN :: replaceRunsFrom isHyphen [HYPHEN] true s).
    rewrite hyphen_pair_free_cons, IHs, IHt. reflexivity.
  - rewrite hyphen_pair_free_cons. simpl. rewrite E, IHf. auto.
Qed.

(** Where no two hyphens touch there is no run to collapse. *)
Lemma pair_free_nothing_to_collapse s :
  hyphen_pair_free s = true ->
  replaceRunsFrom isHyphen [HYPHEN] false s = s
  /\ (starts_with_hyphen s = false ->
      replaceRunsFrom isHyphen [HYPHEN] true s = s).
Proof.
  induction s as [| c s IH]; [auto |].
  rewrite hyphen_pair_free_cons. intro H.
  apply andb_true_iff in H. destruct H as [Hc Hs].
  destruct (IH Hs) as [IHf IHt]. simpl.
  destruct (isHyphen c) eqn:E.
  - simpl in Hc. apply negb_true_iff in Hc.
    apply N.eqb_eq in E. subst c.
    split; [| discriminate]. simpl. rewrite (IHt Hc). reflexivity.
  - rewrite IHf. auto.
Qed.

Lemma derived_slug_pair_free title :
  hyphen_pair_free (generateSlug lowerOther title) = true.
Proof.
  rewrite generateSlug_trim_idle. unfold hyphenated, replaceRuns.
  apply collapsed_hyphens_shape.
Qed.

(** A derived slug never holds two hyphens side by side. *)
Theorem generateSlug_no_hyphen_pair (title : jsstring) :
  hyphen_pair_free (generateSlug lowerOther title) = true.
Proof.
  rewrite generateSlug_trim_idle. unfold hyphenated, replaceRuns.
  destruct (collapsed_hyphens_shape
              (replaceRunsFrom isWhiteSpace [HYPHEN] false
                 (removeNotIn slugSource (toLowerCase lowerOther title))))
    as [_ H].
  exact H.
Qed.

(** The strings generateSlug leaves as they are, are exactly those made of
    a..z, 0..9 and hyphens in which no two hyphens touch. *)
Theorem generateSlug_fixed_points (s : jsstring) :
  generateSlug lowerOther s = s
  <-> slugish s /\ hyphen_pair_free s = true.
Proof.
  split.
  - intro H. rewrite <- H. split.
    + apply generateSlug_slugish.
    + apply derived_slug_pair_free.
  - intros [Hs Hp].
    rewrite generateSlug_trim_idle. unfold hyphenated, toLowerCase.
    rewrite (toLowerCaseFrom_slugish _ _ _ Hs), (removeNotIn_slugish _ Hs).
    unfold replaceRuns.
    rewrite (replaceRunsFrom_none _ _ _ _ (slugish_no_space _ Hs)).
    apply pair_free_nothing_to_collapse, Hp.
Qed.

(** The last step of generateSlug, [trim], never removes anything: the
    result is what the three replacements leave. *)
Theorem generateSlug_final_trim_idle (title : jsstring) :
  generateSlug lowerOther title
  = replaceRuns isHyphen [HYPHEN]
      (replaceRuns isWhiteSpace [HYPHEN]
         (removeNotIn slugSource (toLowerCase lowerOther title))).
Proof.
  unfold generateSlug.
  apply trim_no_space, slugish_no_space.
  exact (hyphenated_slugish lowerOther title).
Qed.

(** A title that starts with an ASCII white space gives a slug that
    starts with a hyphen. *)
Theorem generateSlug_leading_space (c : codeunit) (rest : jsstring) :
  isWhiteSpace c = true -> isAscii c = true ->
  hd_error (generateSlug lowerOther (c :: rest)) = Some HYPHEN.
Proof.
  intros Hw Ha.
  assert (Hl : asciiLower c = c).
  { unfold asciiLower. destruct (isUpperAZ c) eqn:E; [exfalso | reflexivity].
    unfold isWhiteSpace, isUpperAZ, isAscii, between in *.
    repeat rewrite ?orb_true_iff, ?andb_true_iff, ?N.leb_le, ?N.eqb_eq,
      ?N.ltb_lt in *.
    lia. }
  rewrite generateSlug_trim_idle.
  unfold hyphenated, toLowerCase, replaceRuns, removeNotIn.
  simpl. rewrite Ha, Hl. simpl.
  unfold slugSource. rewrite Hw, orb_true_r. simpl. rewrite Hw.
  reflexivity.
Qed.

End SlugShape.

(** The title " notes". *)
Lemma generateSlug_leading_space_witness :
  JS.isWhiteSpace 32%N = true /\ JS.isAscii 32%N = true
  /\ hd_error (JS.generateSlug JS.lowerOther_keep (32%N :: JS.lit "notes"))
     = Some JS.HYPHEN.
Proof.
  split; [reflexivity |]. split; [reflexivity |].
  apply (generateSlug_leading_space JS.lowerOther_keep 32%N (JS.lit "notes"));
    reflexivity.
Defined.

(* ===================================================================== *)
(** ** More on the store: keys, references, cascade                       *)
(* ===================================================================== *)

Section StoreMore.

Import Store Wall.
Local Open Scope N_scope.

Lemma id_taken_In i rows : id_taken i rows = true <-> In i (map id rows).
Proof.
  unfold id_taken. rewrite existsb_exists, in_map_iff.
  split; intros [r [H1 H2]]; exists r.
  - apply N.eqb_eq in H2. auto.
  - split; [exact H2 | apply N.eqb_eq; exact H1].
Qed.

Lemma id_free_not_In i rows : id_taken i rows = false <-> ~ In i (map id rows).
Proof.
  rewrite <- id_taken_In. destruct (id_taken i rows); split; congruence.
Qed.




(** A feedback insert either fails and leaves the store as it was, or
    appends exactly the new row, on a page that is active. *)
Lemma insert_feedback_cases uid fresh now v d :
  (exists e, insert_feedback uid fresh now v d = (Err e, d))
  \/ (exists r,
        insert_feedback uid fresh now v d
        = (Ok r, {| feedback_pages := feedback_pages d;
                    feedback := feedback d ++ [r] |})
        /\ fb_id r = fresh /\ message r = ins_message v
        /\ feedback_page_id r = ins_feedback_page_id v
        /\ fb_created_at r = now
        /\ page_is_active d (ins_feedback_page_id v) = true).
Proof.
  unfold insert_feedback.
  match goal with
  | |- context [feedback_permitted INSERT uid d ?r] => set (row := r)
  end.
  rewrite (feedback_rule INSERT uid d row) by auto. simpl.
  destruct (page_is_active d (ins_feedback_page_id v)) eqn:Hp; simpl;
    [| left; eexists; reflexivity].
  destruct (existsb _ (feedback d)); [left; eexists; reflexivity |].
  match goal with
  | |- context [if ?b then _ else _] => destruct b
  end; [left; eexists; reflexivity |].
  right. exists row. repeat split.
Qed.

Lemma active_page_exists d i :
  page_is_active d (Some i) = true ->
  exists p, In p (feedback_pages d) /\ id p = i /\ is_active p = true.
Proof.
  simpl. rewrite existsb_exists. intros [p [H1 H2]]. exists p.
  apply andb_true_iff in H2. rewrite N.eqb_eq in H2. tauto.
Qed.




(** An update either leaves the store as it was or replaces the pages by
    rows that every piece of feedback still finds its page among. *)
Lemma update_feedback_pages_cases uid now w set d :
  snd (update_feedback_pages uid now w set d) = d
  \/ (exists rows',
        snd (update_feedback_pages uid now w set d)
        = {| feedback_pages := rows'; feedback := feedback d |}
        /\ (forall f i, In f (feedback d) -> feedback_page_id f = Some i ->
                        id_taken i rows' = true)).
Proof.
  unfold update_feedback_pages. cbv zeta.
  match goal with
  | |- context [if negb ?b then _ else _] => destruct b; cbn [negb]
  end; [| left; reflexivity].
  match goal with
  | |- context [if negb ?b then _ else _] => destruct b; cbn [negb]
  end; [| left; reflexivity].
  match goal with
  | |- context [existsb ?g (feedback d)] =>
      destruct (existsb g (feedback d)) eqn:Hfk
  end; [left; reflexivity |].
  right. eexists. split; [reflexivity |].
  intros f i Hf Ei.
  match goal with
  | |- ?t = true => destruct t eqn:Et; [reflexivity | exfalso]
  end.
  rewrite <- Bool.not_true_iff_false in Hfk. apply Hfk.
  apply existsb_exists. exists f. split; [exact Hf |].
  rewrite Ei, Et. reflexivity.
Qed.

Lemma store_step_keeps_references d d' :
  store_step d d' -> references_kept d -> references_kept d'.
Proof.
  intros Hstep Hd. destruct Hstep.
  - destruct (insert_feedback_page_cases uid fresh now v d)
      as [[e He] | (r & Hr & _)].
    + rewrite He. exact Hd.
    + rewrite Hr. intros f Hf. cbn [snd feedback feedback_pages] in *.
      destruct (Hd f Hf) as (p & Hp & E). exists p.
      split; [apply in_or_app; left; exact Hp | exact E].
  - destruct (update_feedback_pages_cases uid now w set d)
      as [He | (rows' & He & Hfk)]; rewrite He; [exact Hd |].
    intros f Hf. cbn [feedback feedback_pages] in *.
    destruct (Hd f Hf) as (p & _ & E).
    pose proof (Hfk f (id p) Hf E) as Ht.
    apply id_taken_In, in_map_iff in Ht. destruct Ht as (q & Hq & Hin).
    exists q. split; [exact Hin | rewrite Hq; exact E].
  - unfold delete_feedback_pages. intros f Hf.
    cbn [snd feedback feedback_pages] in *.
    apply filter_In in Hf. destruct Hf as [Hf Hkeep].
    destruct (Hd f Hf) as (p & Hp & E). rewrite E in Hkeep.
    exists p. split; [| exact E].
    apply filter_In. split; [exact Hp |].
    match goal with
    | |- negb ?h = true => destruct h eqn:Hh; [exfalso | reflexivity]
    end.
    apply negb_true_iff, id_free_not_In in Hkeep. apply Hkeep.
    apply in_map, filter_In. split; [exact Hp | exact Hh].
  - destruct (insert_feedback_cases uid fresh now v d)
      as [[e He] | (r & Hr & _ & _ & Hpage & _ & Hact)].
    + rewrite He. exact Hd.
    + rewrite Hr. intros f Hf. cbn [snd feedback feedback_pages] in *.
      apply in_app_or in Hf. destruct Hf as [Hf | [<- | []]]; [exact (Hd f Hf) |].
      rewrite Hpage.
      destruct (ins_feedback_page_id v) as [i |]; [| discriminate].
      destruct (active_page_exists d i Hact) as (p & Hp & Hid & _).
      exists p. split; [exact Hp | rewrite Hid; reflexivity].
Qed.

(** The foreign key: in every state the store can reach each piece of
    feedback names a page that exists; none is left behind by a delete or
    an update, and none is ever stored without a page. *)
Theorem reachable_references_kept (d : db) :
  reachable d -> references_kept d.
Proof.
  induction 1 as [| d d' _ IH Hstep].
  - intros f [].
  - eapply store_step_keeps_references; eassumption.
Qed.




(** The store treats every caller alike where feedback is concerned: the
    outcome of an insert and the rows a select returns are the same for all
    callers, signed in or not. *)
Theorem feedback_blind_to_caller (uid uid' : option uuid) (d : db) :
  (forall fresh now v,
      insert_feedback uid fresh now v d = insert_feedback uid' fresh now v d)
  /\ (forall w, select_feedback uid d w = select_feedback uid' d w).
Proof.
  split.
  - intros fresh now v. unfold insert_feedback.
    rewrite !(feedback_rule INSERT) by auto. reflexivity.
  - intro w. unfold select_feedback. f_equal.
    apply filter_ext. intro f. rewrite !(feedback_rule SELECT) by auto.
    reflexivity.
Qed.

End StoreMore.

Lemma reachable_references_kept_witness :
  Store.reachable (snd (Store.insert_feedback None 30%N 5000%N
                    {| Store.ins_message := JS.lit "Great product!";
                       Store.ins_feedback_page_id := Some 10%N |}
                    (App.store App.rival_world)))
  /\ Wall.references_kept
       (snd (Store.insert_feedback None 30%N 5000%N
               {| Store.ins_message := JS.lit "Great product!";
                  Store.ins_feedback_page_id := Some 10%N |}
               (App.store App.rival_world))).
Proof.
  assert (H : Store.reachable
                (snd (Store.insert_feedback None 30%N 5000%N
                        {| Store.ins_message := JS.lit "Great product!";
                           Store.ins_feedback_page_id := Some 10%N |}
                        (App.store App.rival_world)))).
  { eapply Store.reach_step; [| apply Store.step_insert_feedback].
    apply (@Store.reach_step Store.empty_db); [constructor |].
    exact (@Store.step_insert_page (Some 1%N) 10%N 1000%N
             (App.page_payload (App.form_with_title "Team retro") (Some 1%N))
             Store.empty_db). }
  split; [exact H | exact (reachable_references_kept _ H)].
Defined.

(* ===================================================================== *)
(** ** More on the page-management view                                   *)
(* ===================================================================== *)

Section OrderByFacts.

Import Store.
Local Open Scope N_scope.

Variable A : Type.
Variable key : A -> timestamp.

Lemma insert_desc_rows x y l :
  In y (insert_desc key x l) <-> y = x \/ In y l.
Proof.
  induction l as [| z l IH]; simpl.
  - intuition.
  - destruct (key z <=? key x); simpl; [intuition |].
    rewrite IH. intuition.
Qed.

(** Ordering returns the rows it was given. *)
Lemma order_desc_rows y l : In y (order_desc key l) <-> In y l.
Proof.
  induction l as [| x l IH]; simpl; [tauto |].
  rewrite insert_desc_rows, IH. intuition.
Qed.

Lemma insert_desc_keeps_order x l :
  StronglySorted (fun a b => key b <= key a) l ->
  StronglySorted (fun a b => key b <= key a) (insert_desc key x l).
Proof.
  induction 1 as [| z l Hl IH Hz]; simpl.
  - repeat constructor.
  - destruct (key z <=? key x) eqn:E.
    + apply N.leb_le in E. constructor; [constructor; assumption |].
      constructor; [exact E |].
      eapply Forall_impl; [| exact Hz]. simpl. intros; lia.
    + apply N.leb_gt in E. constructor; [exact IH |].
      apply Forall_forall. intros y Hy. apply insert_desc_rows in Hy.
      destruct Hy as [-> | Hy]; [lia |].
      rewrite Forall_forall in Hz. apply Hz, Hy.
Qed.

Lemma order_desc_newest_first l :
  StronglySorted (fun a b => key b <= key a) (order_desc key l).
Proof.
  induction l as [| x l IH]; simpl;
    [constructor | apply insert_desc_keeps_order, IH].
Qed.

End OrderByFacts.

Section PagesMore.

Import Store App Wall.
Local Open Scope N_scope.

Lemma own_row_iff uid x : is_true (sql_eq uid (Some x)) = true <-> uid = Some x.
Proof.
  destruct uid as [u |]; simpl; [| split; discriminate].
  destruct (u =? x) eqn:E.
  - apply N.eqb_eq in E. subst. tauto.
  - apply N.eqb_neq in E. split; [discriminate | congruence].
Qed.

Lemma page_visible_iff uid d p :
  page_permitted SELECT uid d p = true
  <-> uid = Some (user_id p) \/ is_active p = true.
Proof.
  rewrite page_select_rule, orb_true_iff, own_row_iff. tauto.
Qed.

(** The list of the page-management view: fetchPages asks for all pages
    with no filter of its own, so the list holds what the SELECT policies
    let through, the caller's pages and every active page of anybody,
    newest first; nothing is written and the form is left alone. *)
Theorem fetchPages_lists_visible_pages (st : pagesState) (w : world) :
  store (snd (fetchPages st w)) = store w
  /\ trace (snd (fetchPages st w)) = trace w ++ [StoreRequest SelectPages]
  /\ loading (fst (fetchPages st w)) = false
  /\ form (fst (fetchPages st w)) = form st
  /\ showCreateForm (fst (fetchPages st w)) = showCreateForm st
  /\ (forall p,
         In p (pages (fst (fetchPages st w)))
         <-> In p (feedback_pages (store w))
             /\ (session w = Some (user_id p) \/ is_active p = true))
  /\ StronglySorted (fun a b => created_at b <= created_at a)
                    (pages (fst (fetchPages st w))).
Proof.
  unfold fetchPages, bind, query, ret. simpl.
  do 5 (split; [reflexivity |]).
  split; [| apply order_desc_newest_first].
  intro p. rewrite order_desc_rows, select_pages_In, page_visible_iff.
  tauto.
Qed.

(** User 2, who owns no page, finds the active page of owner 1 in the
    list. *)
Lemma fetchPages_lists_visible_pages_witness :
  map user_id (pages (fst (fetchPages pages_initial rival_world))) = [1]
  /\ (forall p,
         In p (pages (fst (fetchPages pages_initial rival_world)))
         <-> In p (feedback_pages (store rival_world))
             /\ (session rival_world = Some (user_id p) \/ is_active p = true)).
Proof.
  split; [reflexivity |].
  destruct (fetchPages_lists_visible_pages pages_initial rival_world)
    as (_ & _ & _ & _ & _ & H & _).
  exact H.
Defined.

(** createPage once the store has accepted the insert. *)
Lemma createPage_after_insert e st w r d' :
  is_empty (JS.trim (fd_title (form st))) = false ->
  insert_feedback_page (session w) (fresh_id e) (now e)
    (page_payload st (session w)) (store w) = (Ok r, d') ->
  createPage e st w
  = ({| pages := order_desc created_at
                   (select_pages (session w) d' (fun _ => true));
        loading := false; showCreateForm := false; form := empty_form |},
     {| store := d'; session := session w;
        trace := trace w
                 ++ [StoreRequest (InsertPage (page_payload st (session w)));
                     Toast "Success" "Feedback page created successfully" false;
                     StoreRequest SelectPages] |}).
Proof.
  intros Ht Hi. unfold createPage. rewrite Ht.
  unfold bind, current_user, mutate. rewrite Hi.
  unfold toast, emit, fetchPages, query, ret, bind. simpl.
  rewrite <- !app_assoc. reflexivity.
Qed.

(** createPage is all or nothing.  Either nothing is written, the handler
    gives back the state it was given, form included, and the last thing
    the user sees is an error notification; or exactly one page is added,
    feedback is untouched, the form is emptied and closed, and the list is
    reloaded with the new page in it. *)
Theorem createPage_all_or_nothing (e : entropy) (st : pagesState) (w : world) :
  (fst (createPage e st w) = st
   /\ store (snd (createPage e st w)) = store w
   /\ exists earlier what,
       trace (snd (createPage e st w))
       = trace w ++ earlier ++ [Toast "Error" what true])
  \/ (exists r,
         feedback_pages (store (snd (createPage e st w)))
         = feedback_pages (store w) ++ [r]
         /\ feedback (store (snd (createPage e st w))) = feedback (store w)
         /\ form (fst (createPage e st w)) = empty_form
         /\ showCreateForm (fst (createPage e st w)) = false
         /\ loading (fst (createPage e st w)) = false
         /\ In r (pages (fst (createPage e st w)))).
Proof.
  destruct (is_empty (JS.trim (fd_title (form st)))) eqn:Ht.
  - left. rewrite (createPage_rejects_blank_title e st w Ht).
    split; [reflexivity |]. split; [reflexivity |].
    exists [], "Title is required"%string. reflexivity.
  - destruct (createPage_sends_insert e st w Ht)
      as [(err & _ & Hc) | (r & Hi & _ & _ & Hown & _)].
    + left. rewrite Hc.
      split; [reflexivity |]. split; [reflexivity |].
      exists [StoreRequest (InsertPage (page_payload st (session w)))],
        "Failed to create feedback page"%string.
      reflexivity.
    + right. exists r.
      rewrite (createPage_after_insert e st w r _ Ht Hi). simpl.
      repeat split.
      apply order_desc_rows, select_pages_In.
      split; [apply in_or_app; right; left; reflexivity |].
      split; [| reflexivity].
      apply page_visible_iff. left. exact Hown.
Qed.

(** What a page created by createPage looks like: the caller owns it, its
    slug and description are the form's, taken as they are, it is active,
    and its identifier and creation time are the ones drawn. *)
Theorem createPage_new_row (e : entropy) (st : pagesState) (w : world)
        (r : feedback_pages_row) :
  In r (feedback_pages (store (snd (createPage e st w)))) ->
  ~ In r (feedback_pages (store w)) ->
  session w = Some (user_id r)
  /\ id r = fresh_id e
  /\ slug r = fd_slug (form st)
  /\ description r = Some (fd_description (form st))
  /\ is_active r = true
  /\ created_at r = now e.
Proof.
  intros Hin Hout.
  destruct (is_empty (JS.trim (fd_title (form st)))) eqn:Ht.
  - rewrite (createPage_rejects_blank_title e st w Ht) in Hin. contradiction.
  - unfold createPage in Hin. rewrite Ht in Hin.
    unfold bind, current_user, mutate in Hin.
    destruct (insert_feedback_page_cases (session w) (fresh_id e) (now e)
                (page_payload st (session w)) (store w))
      as [[err He] | (q & Hq & _ & Hu & Hid & _ & Hd & Hs & Ha & Hc & _)];
      [rewrite He in Hin | rewrite Hq in Hin]; simpl in Hin;
      [contradiction |].
    apply in_app_or in Hin. destruct Hin as [Hin | [<- | []]];
      [contradiction |].
    repeat split; assumption.
Qed.

Lemma createPage_new_row_witness :
  (map slug (feedback_pages
               (store (snd (createPage draw (form_with_title "Team retro")
                                       owner_world))))
   = [JS.lit "team-retro"]
   /\ feedback_pages (store owner_world) = [])
  /\ (session owner_world = Some 1
      /\ slug (hd page_of_B (feedback_pages (store rival_world)))
         = JS.lit "team-retro"
      /\ is_active (hd page_of_B (feedback_pages (store rival_world))) = true).
Proof.
  split; [split; reflexivity |].
  destruct (createPage_new_row draw (form_with_title "Team retro") owner_world
              (hd page_of_B (feedback_pages (store rival_world))))
    as (H1 & _ & H3 & _ & H5 & _).
  - left. reflexivity.
  - intros [].
  - split; [exact H1 |]. split; [exact H3 | exact H5].
Defined.



(** Without a signed-in user createPage never writes: whatever the form
    holds, both tables stay as they are and the state is given back. *)
Theorem createPage_needs_a_user (e : entropy) (st : pagesState) (w : world) :
  session w = None ->
  store (snd (createPage e st w)) = store w
  /\ fst (createPage e st w) = st.
Proof.
  intro Hs.
  destruct (is_empty (JS.trim (fd_title (form st)))) eqn:Ht.
  - rewrite (createPage_rejects_blank_title e st w Ht). split; reflexivity.
  - destruct (createPage_sends_insert e st w Ht)
      as [(err & _ & Hc) | (q & _ & _ & _ & Hown & _)].
    + rewrite Hc. split; reflexivity.
    + congruence.
Qed.

Lemma createPage_needs_a_user_witness :
  store (snd (createPage draw (form_with_title "Team retro")
                         (as_caller None owner_world)))
  = store (as_caller None owner_world)
  /\ fst (createPage draw (form_with_title "Team retro")
                     (as_caller None owner_world))
     = form_with_title "Team retro".
Proof.
  apply (createPage_needs_a_user draw (form_with_title "Team retro")
           (as_caller None owner_world)).
  reflexivity.
Defined.

End PagesMore.

(* ===================================================================== *)
(** ** More on the public submission view                                 *)
(* ===================================================================== *)

Section PublicMore.

Import Store App Wall.
Local Open Scope N_scope.

Lemma dropWhile_is_suffix p s :
  exists front, s = front ++ JS.dropWhile p s.
Proof.
  induction s as [| c s [front IH]]; simpl.
  - exists []. reflexivity.
  - destruct (p c).
    + exists (c :: front). simpl. f_equal. exact IH.
    + exists []. reflexivity.
Qed.

Lemma dropWhile_stops p s c rest :
  JS.dropWhile p s = c :: rest -> p c = false.
Proof.
  induction s as [| x s IH]; simpl; [discriminate |].
  destruct (p x) eqn:E; [exact IH |].
  intro H. inversion H; subst. exact E.
Qed.

(** What [trim] returns neither starts nor ends with white space. *)
Lemma trim_outer_chars s :
  (forall c rest, JS.trim s = c :: rest -> JS.isWhiteSpace c = false)
  /\ (forall front c, JS.trim s = front ++ [c] -> JS.isWhiteSpace c = false).
Proof.
  unfold JS.trim, JS.trimEnd, JS.trimStart.
  set (t := JS.dropWhile JS.isWhiteSpace s).
  set (u := JS.dropWhile JS.isWhiteSpace (rev t)).
  split.
  - intros c rest H.
    assert (Hu : u = rev rest ++ [c]).
    { rewrite <- (rev_involutive u), H. reflexivity. }
    destruct (dropWhile_is_suffix JS.isWhiteSpace (rev t)) as [front Hf].
    fold u in Hf. rewrite Hu in Hf.
    assert (Ht : t = c :: rev (front ++ rev rest)).
    { rewrite <- (rev_involutive t), Hf, app_assoc, rev_app_distr.
      reflexivity. }
    exact (dropWhile_stops _ _ _ _ Ht).
  - intros front c H.
    assert (Hu : u = c :: rev front).
    { rewrite <- (rev_involutive u), H, rev_app_distr. reflexivity. }
    exact (dropWhile_stops _ _ _ _ Hu).
Qed.

(** What submitFeedback does with a message that is not blank. *)
Lemma submitFeedback_sends_insert e st w :
  is_empty (JS.trim (pub_message st)) = false ->
  (exists err,
      insert_feedback (session w) (fresh_id e) (now e) (feedback_payload st)
                      (store w) = (Err err, store w)
      /\ store (snd (submitFeedback e st w)) = store w
      /\ submitted (fst (submitFeedback e st w)) = submitted st)
  \/ (exists r,
        message r = JS.trim (pub_message st)
        /\ feedback_page_id r = option_map id (pub_page st)
        /\ fb_id r = fresh_id e /\ fb_created_at r = now e
        /\ page_is_active (store w) (option_map id (pub_page st)) = true
        /\ submitFeedback e st w
           = ({| pub_page := pub_page st; pub_loading := pub_loading st;
                 submitting := false; pub_message := pub_message st;
                 submitted := true |},
              {| store := {| feedback_pages := feedback_pages (store w);
                             feedback := feedback (store w) ++ [r] |};
                 session := session w;
                 trace := trace w
                          ++ [StoreRequest (InsertFeedback (feedback_payload st));
                              Toast "Success" "Thank you for your feedback!"
                                    false] |})).
Proof.
  intro Hm. unfold submitFeedback. rewrite Hm. unfold bind, mutate.
  destruct (insert_feedback_cases (session w) (fresh_id e) (now e)
              (feedback_payload st) (store w))
    as [[err He] | (r & Hr & Hid & Hmsg & Hpage & Hat & Hact)].
  - left. exists err. rewrite He. simpl. auto.
  - right. exists r. rewrite Hr.
    unfold toast, emit, ret. simpl. rewrite <- !app_assoc.
    repeat split; assumption.
Qed.

(** What a piece of feedback created by submitFeedback looks like: its
    message is the typed one with the white space at both ends removed, so
    it is not empty and neither starts nor ends with white space, and it
    belongs to the page the view has loaded, which is active. *)
Theorem submitFeedback_new_row (e : entropy) (st : publicState) (w : world)
        (f : feedback_row) :
  In f (feedback (store (snd (submitFeedback e st w)))) ->
  ~ In f (feedback (store w)) ->
  message f = JS.trim (pub_message st)
  /\ message f <> []
  /\ (forall c rest, message f = c :: rest -> JS.isWhiteSpace c = false)
  /\ (forall front c, message f = front ++ [c] -> JS.isWhiteSpace c = false)
  /\ (exists p, pub_page st = Some p /\ feedback_page_id f = Some (id p)
                /\ page_is_active (store w) (Some (id p)) = true).
Proof.
  intros Hin Hout.
  destruct (is_empty (JS.trim (pub_message st))) eqn:Hm.
  - rewrite (submitFeedback_rejects_blank_message e st w Hm) in Hin.
    contradiction.
  - destruct (submitFeedback_sends_insert e st w Hm)
      as [(err & _ & Hs & _) | (r & Hmsg & Hpage & _ & _ & Hact & Hc)].
    + rewrite Hs in Hin. contradiction.
    + rewrite Hc in Hin. simpl in Hin.
      apply in_app_or in Hin. destruct Hin as [Hin | [<- | []]];
        [contradiction |].
      rewrite Hmsg.
      destruct (trim_outer_chars (pub_message st)) as [Hhd Hlast].
      split; [reflexivity |].
      split; [intro E; rewrite E in Hm; discriminate |].
      split; [exact Hhd |]. split; [exact Hlast |].
      destruct (pub_page st) as [p |]; [| discriminate].
      exists p. auto.
Qed.

(** " Great product! " typed by an anonymous visitor on "team-retro" is
    stored as "Great product!" on page 10. *)
Lemma submitFeedback_new_row_witness :
  feedback (store (snd (submitFeedback draw_note visitor_typing visitor_world)))
  = [{| fb_id := 30; message := JS.lit "Great product!";
        fb_created_at := 5000; feedback_page_id := Some 10;
        fb_updated_at := 5000 |}]
  /\ message (note 30 "Great product!" 5000)
     = JS.trim (pub_message visitor_typing).
Proof.
  split; [reflexivity |].
  destruct (submitFeedback_new_row draw_note visitor_typing visitor_world
              (note 30 "Great product!" 5000)) as (H & _).
  - left. reflexivity.
  - intros [].
  - exact H.
Defined.



End PublicMore.

(* ===================================================================== *)
(** ** More on the feedback-review view                                   *)
(* ===================================================================== *)

Section ReviewMore.

Import Store App Wall.
Local Open Scope N_scope.

Lemma owner_filter_iff x uid :
  is_true (sql_eq (Some x) uid) = true <-> uid = Some x.
Proof.
  destruct uid as [u |]; simpl; [| split; discriminate].
  destruct (x =? u) eqn:E.
  - apply N.eqb_eq in E. subst. tauto.
  - apply N.eqb_neq in E. split; [discriminate | congruence].
Qed.

Lemma of_page_iff pageId f :
  of_page pageId f = true <-> feedback_page_id f = Some pageId.
Proof.
  unfold of_page. destruct (feedback_page_id f) as [i |]; simpl;
    [| split; discriminate].
  destruct (i =? pageId) eqn:E.
  - apply N.eqb_eq in E. subst. tauto.
  - apply N.eqb_neq in E. split; [discriminate | congruence].
Qed.

(** With unique identifiers the owner's query returns the one page. *)
Lemma unique_id_one_row d p :
  NoDup (map id (feedback_pages d)) -> In p (feedback_pages d) ->
  select_pages (Some (user_id p)) d
    (by_id_and_owner (id p) (Some (user_id p))) = [p].
Proof.
  intros Hnd Hin. unfold select_pages.
  rewrite filter_filter_weaker.
  2:{ intros r Hr. unfold by_id_and_owner in Hr.
      apply andb_true_iff in Hr. destruct Hr as [_ Hr].
      apply owner_filter_iff in Hr.
      apply page_visible_iff. left. congruence. }
  assert (Hp : by_id_and_owner (id p) (Some (user_id p)) p = true).
  { unfold by_id_and_owner. simpl. rewrite !N.eqb_refl. reflexivity. }
  induction (feedback_pages d) as [| x rows IH]; [contradiction |].
  simpl in Hnd. apply NoDup_cons_iff in Hnd. destruct Hnd as [Hx Hrows].
  assert (Hother : forall y, In y rows -> id x = id p ->
                             by_id_and_owner (id p) (Some (user_id p)) y = false).
  { intros y Hy E. unfold by_id_and_owner.
    destruct (id y =? id p) eqn:Ey; [| reflexivity].
    apply N.eqb_eq in Ey. exfalso. apply Hx. rewrite E, <- Ey.
    apply in_map, Hy. }
  destruct Hin as [-> | Hin].
  - simpl. rewrite Hp. f_equal. apply filter_none.
    intros y Hy. apply Hother; [exact Hy | reflexivity].
  - simpl.
    destruct (by_id_and_owner (id p) (Some (user_id p)) x) eqn:Ex.
    + exfalso. unfold by_id_and_owner in Ex.
      apply andb_true_iff in Ex. destruct Ex as [Ex _].
      apply N.eqb_eq in Ex. apply Hx. rewrite Ex. apply in_map, Hin.
    + apply IH; assumption.
Qed.

(** What the owner of an active page finds in the review view: the
    feedback of that page, all of it and nothing else. *)
Lemma review_of_owned_page w p f :
  NoDup (map id (feedback_pages (store w))) ->
  In p (feedback_pages (store w)) ->
  session w = Some (user_id p) -> is_active p = true ->
  In f (rev_feedback (fst (fetchPageAndFeedback (id p) review_initial w)))
  <-> In f (feedback (store w)) /\ feedback_page_id f = Some (id p).
Proof.
  intros Hnd Hin Hs Hact.
  pose proof (fetchPageAndFeedback_cases (id p) review_initial w) as Hc.
  assert (E : select_pages (session w) (store w)
                (by_id_and_owner (id p) (session w)) = [p])
    by (rewrite Hs; apply unique_id_one_row; assumption).
  rewrite E in Hc. unfold single in Hc. rewrite Hc. simpl.
  rewrite (order_desc_rows feedback_row fb_created_at).
  unfold select_feedback. rewrite !filter_In, of_page_iff.
  rewrite (feedback_rule SELECT) by auto.
  split; [tauto |]. intros [H1 H2]. repeat split; auto.
  rewrite H2. simpl. apply existsb_exists. exists p.
  split; [exact Hin |]. rewrite N.eqb_refl, Hact. reflexivity.
Qed.

(** The owner of an active page finds in the review view the feedback of
    that page, all of it and nothing else. *)
Theorem review_shows_all_and_only (w : world) (p : feedback_pages_row)
        (f : feedback_row) :
  NoDup (map id (feedback_pages (store w))) ->
  In p (feedback_pages (store w)) ->
  session w = Some (user_id p) -> is_active p = true ->
  In f (rev_feedback (fst (fetchPageAndFeedback (id p) review_initial w)))
  <-> In f (feedback (store w)) /\ feedback_page_id f = Some (id p).
Proof.
  intros Hnd Hin Hs Hact.
  apply review_of_owned_page; assumption.
Qed.

Lemma review_shows_all_and_only_witness :
  In (note 22 "third" 300)
     (rev_feedback (fst (fetchPageAndFeedback 10 review_initial busy_world)))
  <-> In (note 22 "third" 300) (feedback (store busy_world))
      /\ feedback_page_id (note 22 "third" 300) = Some 10.
Proof.
  apply (review_shows_all_and_only busy_world
           (hd page_of_B (feedback_pages (store busy_world)))
           (note 22 "third" 300)).
  - repeat constructor. intros [].
  - left. reflexivity.
  - reflexivity.
  - reflexivity.
Defined.

(** Once a page is switched off its owner sees none of its feedback: the
    SELECT policy of feedback lets rows through only while their page is
    active, for the owner as for anybody. *)
Theorem review_of_inactive_page_is_empty (pageId : uuid) (w : world) :
  page_is_active (store w) (Some pageId) = false ->
  rev_feedback (fst (fetchPageAndFeedback pageId review_initial w)) = [].
Proof.
  intro H.
  destruct (review_feedback_cases pageId w) as [[_ E] | E]; [exact E |].
  rewrite E.
  assert (Hn : select_feedback (session w) (store w) (of_page pageId) = []).
  { unfold select_feedback. apply filter_none. intros f Hf.
    apply filter_In in Hf. destruct Hf as [_ Hf].
    rewrite (feedback_rule SELECT) in Hf by auto.
    destruct (of_page pageId f) eqn:Eo; [| reflexivity].
    apply of_page_iff in Eo. rewrite Eo in Hf. congruence. }
  rewrite Hn. reflexivity.
Qed.

(** Owner 1 opens the review view of "team-retro" after switching it off:
    the page is there, the three pieces of feedback in the store are not
    shown. *)
Lemma review_of_inactive_page_is_empty_witness :
  List.length (feedback (store silent_world)) = 3%nat
  /\ option_map id
       (rev_page (fst (fetchPageAndFeedback 10 review_initial silent_world)))
     = Some 10
  /\ rev_feedback (fst (fetchPageAndFeedback 10 review_initial silent_world))
     = [].
Proof.
  split; [reflexivity |]. split; [reflexivity |].
  apply (review_of_inactive_page_is_empty 10 silent_world). reflexivity.
Defined.




(** Loading a view writes nothing.  The public view leaves the store as
    it is, ends its loading state and keeps what has been typed, and sends
    no request when the route has no slug; the review view sends no request
    for a visitor who is not signed in and, once that is known, sends the
    visitor to the sign-in view. *)
Theorem views_load_without_writing :
  (forall route st w,
      store (snd (fetchPage route st w)) = store w
      /\ pub_loading (fst (fetchPage route st w)) = false
      /\ pub_message (fst (fetchPage route st w)) = pub_message st
      /\ submitted (fst (fetchPage route st w)) = submitted st)
  /\ (forall st w,
         fetchPage None st w = (set_pub_loaded (pub_page st) st, w)
         /\ fetchPage (Some []) st w = (set_pub_loaded (pub_page st) st, w))
  /\ (forall authLoading pageId st w,
         store (snd (review_mount authLoading pageId st w)) = store w)
  /\ (forall authLoading pageId st w,
         session w = None ->
         fst (review_mount authLoading pageId st w) = st
         /\ trace (snd (review_mount authLoading pageId st w))
            = trace w ++ (if authLoading then [] else [Navigate "/auth"])).
Proof.
  split; [| split; [| split]].
  - intros route st w.
    destruct route as [[| c s] |]; try (repeat split; fail).
    pose proof (fetchPage_cases (c :: s) st w) as Hc.
    destruct (single _); rewrite Hc by discriminate; repeat split.
  - intros st w. split; reflexivity.
  - intros authLoading pageId st w. unfold review_mount, bind, current_user.
    destruct (session w) as [u |] eqn:Es.
    + destruct pageId as [i |]; [| reflexivity].
      pose proof (fetchPageAndFeedback_cases i st w) as Hc.
      destruct (single _); rewrite Hc; reflexivity.
    + destruct authLoading; reflexivity.
  - intros authLoading pageId st w Hs. unfold review_mount, bind, current_user.
    rewrite Hs. destruct authLoading; simpl.
    + rewrite app_nil_r. split; reflexivity.
    + split; reflexivity.
Qed.

End ReviewMore.

(* ===================================================================== *)
(** ** Profiles                                                           *)
(* ===================================================================== *)

Section ProfileFacts.

Import Store Profiles.
Local Open Scope N_scope.

(** The policies of profiles: a caller reads, creates and updates the
    profile that carries the caller's own identifier and no other; an
    anonymous caller does none of this; and nobody deletes a profile, for
    want of a DELETE policy. *)
Theorem profile_access :
  (forall a d r,
      pr_user_id r <> a ->
      profile_permitted SELECT (Some a) d r = false
      /\ profile_permitted INSERT (Some a) d r = false
      /\ profile_permitted UPDATE (Some a) d r = false)
  /\ (forall d r,
         profile_permitted SELECT (Some (pr_user_id r)) d r = true
         /\ profile_permitted INSERT (Some (pr_user_id r)) d r = true
         /\ profile_permitted UPDATE (Some (pr_user_id r)) d r = true)
  /\ (forall cmd d r, profile_permitted cmd None d r = false)
  /\ (forall uid d r, profile_permitted DELETE uid d r = false).
Proof.
  split; [| split; [| split]].
  - intros a d r H.
    assert (E : (a =? pr_user_id r) = false) by (apply N.eqb_neq; congruence).
    unfold profile_permitted, passes_using, passes_check, own_profile.
    simpl. rewrite E. auto.
  - intros d r.
    unfold profile_permitted, passes_using, passes_check, own_profile.
    simpl. rewrite N.eqb_refl. auto.
  - intros cmd d r. destruct cmd; reflexivity.
  - intros uid d r. reflexivity.
Qed.

Lemma handle_new_user_cases fresh now new profiles :
  handle_new_user fresh now new profiles = (Err UniqueViolation, profiles)
  \/ (exists r,
        handle_new_user fresh now new profiles = (Ok r, profiles ++ [r])
        /\ pr_id r = fresh /\ pr_user_id r = au_id new
        /\ email r = au_email new
        /\ display_name r
           = coalesce [au_meta new "display_name"; au_meta new "full_name";
                       Some (JS.lit "Anonymous")]
        /\ ~ In fresh (map pr_id profiles)
        /\ ~ In (au_id new) (map pr_user_id profiles)).
Proof.
  unfold handle_new_user.
  destruct (existsb (fun q => pr_id q =? fresh) profiles) eqn:E1; [auto |].
  destruct (existsb (fun q => pr_user_id q =? au_id new) profiles) eqn:E2;
    [auto |].
  right. eexists. split; [reflexivity |]. repeat split.
  - intro H. apply in_map_iff in H. destruct H as (q & Hq & Hin).
    rewrite <- Bool.not_true_iff_false in E1. apply E1.
    apply existsb_exists. exists q. split; [exact Hin | apply N.eqb_eq, Hq].
  - intro H. apply in_map_iff in H. destruct H as (q & Hq & Hin).
    rewrite <- Bool.not_true_iff_false in E2. apply E2.
    apply existsb_exists. exists q. split; [exact Hin | apply N.eqb_eq, Hq].
Qed.

(** The profile the sign-up trigger creates belongs to the new user,
    copies the email, and always has a display name: the one given at
    sign-up, else the full name given, else "Anonymous". *)
Theorem sign_up_profile (fresh : uuid) (now : timestamp) (new : auth_user)
        (profiles profiles' : list profiles_row) (r : profiles_row) :
  handle_new_user fresh now new profiles = (Ok r, profiles') ->
  profiles' = profiles ++ [r]
  /\ pr_user_id r = au_id new
  /\ email r = au_email new
  /\ display_name r <> None
  /\ (forall v, au_meta new "display_name" = Some v -> display_name r = Some v)
  /\ (forall v, au_meta new "display_name" = None ->
                au_meta new "full_name" = Some v -> display_name r = Some v)
  /\ (au_meta new "display_name" = None -> au_meta new "full_name" = None ->
      display_name r = Some (JS.lit "Anonymous")).
Proof.
  intro H.
  destruct (handle_new_user_cases fresh now new profiles)
    as [He | (q & Hq & _ & Hu & Hm & Hd & _)]; [congruence |].
  rewrite Hq in H. inversion H; subst q profiles'.
  split; [reflexivity |]. split; [exact Hu |]. split; [exact Hm |].
  rewrite Hd. simpl.
  destruct (au_meta new "display_name") as [v1 |],
           (au_meta new "full_name") as [v2 |];
    repeat split; try discriminate; try congruence.
Qed.

(** Ada gave a full name only: her profile is called "Ada L.". *)
Lemma sign_up_profile_witness :
  map display_name (snd (handle_new_user 1 100 ada [])) = [Some (JS.lit "Ada L.")]
  /\ pr_user_id (note_profile ada) = au_id ada
  /\ display_name (note_profile ada) <> None.
Proof.
  split; [reflexivity |].
  destruct (sign_up_profile 1 100 ada [] [note_profile ada] (note_profile ada))
    as (_ & H2 & _ & H4 & _).
  - reflexivity.
  - split; [exact H2 | exact H4].
Defined.

(** One profile per user: whatever sign-ups have happened, no two
    profiles share a user or an identifier, and every profile has a display
    name; a second sign-up of the same user fails and changes nothing. *)
Theorem one_profile_per_user (profiles : list profiles_row) :
  signed_up profiles ->
  NoDup (map pr_user_id profiles)
  /\ NoDup (map pr_id profiles)
  /\ Forall (fun q => display_name q <> None) profiles
  /\ (forall fresh now new,
         In (au_id new) (map pr_user_id profiles) ->
         handle_new_user fresh now new profiles
         = (Err UniqueViolation, profiles)).
Proof.
  intro H.
  assert (Hinv : NoDup (map pr_user_id profiles)
                 /\ NoDup (map pr_id profiles)
                 /\ Forall (fun q => display_name q <> None) profiles).
  { induction H as [| fresh now new profiles _ (IH1 & IH2 & IH3)].
    - repeat constructor.
    - destruct (handle_new_user_cases fresh now new profiles)
        as [He | (r & Hr & Hid & Hu & _ & Hd & Hf1 & Hf2)];
        [rewrite He; auto |].
      rewrite Hr. simpl. rewrite !map_app. simpl.
      split; [| split].
      + apply NoDup_snoc; [exact IH1 | rewrite Hu; exact Hf2].
      + apply NoDup_snoc; [exact IH2 | rewrite Hid; exact Hf1].
      + apply Forall_app. split; [exact IH3 |].
        constructor; [| constructor]. rewrite Hd. simpl.
        destruct (au_meta new "display_name"); [discriminate |].
        destruct (au_meta new "full_name"); discriminate. }
  destruct Hinv as (H1 & H2 & H3).
  repeat split; try assumption.
  intros fresh now new Hin.
  destruct (handle_new_user_cases fresh now new profiles)
    as [He | (r & _ & _ & _ & _ & _ & _ & Hf)]; [exact He | contradiction].
Qed.

Lemma one_profile_per_user_witness :
  signed_up (snd (handle_new_user 1 100 ada []))
  /\ handle_new_user 2 200 ada (snd (handle_new_user 1 100 ada []))
     = (Err UniqueViolation, snd (handle_new_user 1 100 ada [])).
Proof.
  assert (H : signed_up (snd (handle_new_user 1 100 ada [])))
    by (constructor; constructor).
  split; [exact H |].
  destruct (one_profile_per_user _ H) as (_ & _ & _ & Hdup).
  apply Hdup. left. reflexivity.
Defined.

End ProfileFacts.
